(** * Image-watermarker: a shallow embedding of [main.py]

    The development follows the source file top to bottom:
    - Python values, exceptions and the [float] type (IEEE 754 binary64),
    - the string and [os.path] helpers the program calls,
    - the imaging library (PIL) and the file system, taken as an interface,
    - a small monad for the effects of the program (world, exceptions,
      the sequence of library calls and printed lines),
    - [offset], [resize], [build_output_path], [add_watermark] and
      [add_watermarks_to_directory],
    - the properties of these functions. *)

From Stdlib Require Import ZArith List String Ascii Bool Lia.
From Stdlib Require Import Floats.SpecFloat.
Import ListNotations.

Local Open Scope string_scope.
Local Open Scope Z_scope.

(** ** Python values and exceptions *)

(** [float] is IEEE 754 binary64: 53 bits of precision, exponents below 1024.
    The operations are the ones of the standard library's specification of
    binary floating point ([SpecFloat]); they round to nearest, ties to
    even. *)
Definition prec : Z := 53.
Definition emax : Z := 1024.
Definition float : Type := spec_float.

(** The Python values an argument of the program can hold. *)
Inductive pyval : Type :=
| PyNone
| PyBool (b : bool)
| PyInt (z : Z)
| PyFloat (f : float)
| PyStr (s : string).

(** [isinstance(v, float)] *)
Definition isinstance_float (v : pyval) : bool :=
  match v with PyFloat _ => true | _ => false end.

(** The three groups in which the [except] clauses of the program sort an
    exception: an instance of [TypeError], an instance of [ValueError], or
    any other instance of [Exception] ([OverflowError], [OSError], ...). *)
Inductive exn_class : Type := TypeError | ValueError | OtherException.

Record exn : Type := Exn { exn_kind : exn_class; exn_msg : string }.

Definition result (A : Type) : Type := (exn + A)%type.

(** ** Floating point as Python uses it *)

Definition float_zero : float := S754_zero false.

(** [float(z)] for an [int]: correctly rounded, [OverflowError] when the
    rounded value is not finite. *)
Definition float_of_int (z : Z) : result float :=
  match binary_normalize prec emax z 0 false with
  | S754_infinity _ | S754_nan =>
      inl (Exn OtherException "int too large to convert to float")
  | f => inr f
  end.

(** [x * y] on floats. *)
Definition float_mul (x y : float) : float := SFmul prec emax x y.

(** [i * f] for an [int] [i] and a [float] [f]: the [int] is converted
    first. *)
Definition int_mul_float (i : Z) (f : float) : result float :=
  match float_of_int i with
  | inl e => inl e
  | inr x => inr (float_mul x f)
  end.

(** The integer part of a finite float, toward zero. *)
Definition float_trunc (s : bool) (m : positive) (e : Z) : Z :=
  let a := if 0 <=? e then Z.pos m * 2 ^ e else Z.pos m / 2 ^ (- e) in
  if s then - a else a.

(** [int(f)]: truncation toward zero; [OverflowError] on an infinity,
    [ValueError] on a NaN. *)
Definition int_of_float (f : float) : result Z :=
  match f with
  | S754_zero _ => inr 0
  | S754_finite s m e => inr (float_trunc s m e)
  | S754_infinity _ =>
      inl (Exn OtherException "cannot convert float infinity to integer")
  | S754_nan =>
      inl (Exn ValueError "cannot convert float NaN to integer")
  end.

(** [f <= 0]: false on a NaN. *)
Definition float_le_zero (f : float) : bool := SFleb f float_zero.

(** [0 < f], the invariant of a Scale Factor; false on a NaN. *)
Definition float_pos (f : float) : bool := SFltb float_zero f.

Definition is_finite (f : float) : bool :=
  match f with S754_zero _ | S754_finite _ _ _ => true | _ => false end.

(** Some float literals. *)
Definition float_one : float := binary_normalize prec emax 1 0 false.
Definition float_three : float := binary_normalize prec emax 3 0 false.
(** [0.5] *)
Definition float_half : float := binary_normalize prec emax 1 (-1) false.
(** [1/3], printed by Python as [0.3333333333333333] *)
Definition float_third : float := SFdiv prec emax float_one float_three.
(** [sys.float_info.max], about [1.7976931348623157e308] *)
Definition float_max : float := S754_finite false (2 ^ 53 - 1) 971.

(** ** Strings and [os.path] (POSIX) *)

Definition sep : ascii := "/"%char.

(** [c.lower()] on an ASCII letter. *)
Definition lower_ascii (c : ascii) : ascii :=
  let n := nat_of_ascii c in
  if (Nat.leb 65 n && Nat.leb n 90)%bool then ascii_of_nat (n + 32) else c.

(** [s.lower()]; the characters of the model are the 8-bit [ascii]. *)
Fixpoint lower (s : string) : string :=
  match s with
  | EmptyString => EmptyString
  | String c r => String (lower_ascii c) (lower r)
  end.

(** [s[n:]] *)
Fixpoint slice_from (n : nat) (s : string) : string :=
  match n, s with
  | O, _ => s
  | S n', EmptyString => EmptyString
  | S n', String _ r => slice_from n' r
  end.

(** [s.startswith(p)] and [s.endswith(p)] for one string [p]. *)
Definition startswith (s p : string) : bool := String.prefix p s.

Definition endswith (s p : string) : bool :=
  (Nat.leb (String.length p) (String.length s)
   && String.eqb (slice_from (String.length s - String.length p) s) p)%bool.

(** [s.endswith(t)] for a tuple [t] of strings. *)
Definition endswith_any (s : string) (t : list string) : bool :=
  existsb (endswith s) t.

(** [s.rfind(c)] for a character: the last index of [c], [-1] when absent. *)
Fixpoint rfind (c : ascii) (s : string) : Z :=
  match s with
  | EmptyString => -1
  | String a r =>
      let i := rfind c r in
      if 0 <=? i then i + 1 else if Ascii.eqb a c then 0 else -1
  end.

(** [posixpath.join(a, b)] *)
Definition path_join (a b : string) : string :=
  if startswith b (String sep EmptyString) then b
  else if (String.eqb a EmptyString || endswith a (String sep EmptyString))%bool
       then a ++ b
       else a ++ String sep b.

(** [posixpath.basename(p)] *)
Definition basename (p : string) : string :=
  slice_from (Z.to_nat (rfind sep p + 1)) p.

Definition IMAGE_FILE_EXTENSIONS : list string :=
  [".jpg"; ".jpeg"; ".png"; ".gif"; ".bmp"].

Definition valid_positions : list string :=
  ["top-left"; "bottom-left"; "top-right"; "bottom-right"; "center"].

(** [repr] of a list of strings, as an f-string prints it. *)
Definition repr_str (s : string) : string := "'" ++ s ++ "'".

Definition repr_list (l : list string) : string :=
  "[" ++ String.concat ", " (map repr_str l) ++ "]".

(** ** The imaging library and the file system

    [PIL] and [os] are outside the program. The program sees a file system
    (the [world]), images with a [size], and calls that return or raise. *)
Class ImageLibrary : Type := {
  world : Type;
  image : Type;
  (** [im.size], a pair (width, height) *)
  size : image -> Z * Z;
  (** [os.listdir(path)] *)
  os_listdir : string -> world -> result (list string);
  (** [Image.open(path)] *)
  Image_open : string -> world -> result image;
  (** [im.resize(size)]; the argument is [None] when [resize] failed *)
  Image_resize : image -> option (Z * Z) -> result image;
  (** [ImageOps.grayscale(im)] and [ImageOps.invert(im)] *)
  ImageOps_grayscale : image -> result image;
  ImageOps_invert : image -> result image;
  (** [base.paste(im, box, mask)]: the image [base] holds afterwards *)
  Image_paste : image -> image -> option (Z * Z) -> image -> result image;
  (** [im.save(path)]: the file system afterwards, and the exception if any *)
  Image_save : image -> option string -> world -> option exn * world
}.

Section Watermarker.

Context {L : ImageLibrary}.

(** What the program does to the outside, in order: the lines it prints and
    the library calls it makes (a call is recorded whether it returns or
    raises). *)
Inductive event : Type :=
| Print (line : string)
| Listdir (path : string)
| Open (path : string)
| Close (path : string)
| Resize (im : image) (target : option (Z * Z))
| Grayscale (im : image)
| Invert (im : image)
| Paste (base im : image) (box : option (Z * Z)) (mask : image)
| Save (im : image) (path : option string).

(** ** The monad of the program: file system in, result or exception,
    file system and events out. *)
Definition M (A : Type) : Type := world -> result A * world * list event.

Definition ret {A} (a : A) : M A := fun w => (inr a, w, []).

Definition bind {A B} (m : M A) (k : A -> M B) : M B :=
  fun w =>
    match m w with
    | (inl e, w1, t1) => (inl e, w1, t1)
    | (inr a, w1, t1) =>
        match k a w1 with
        | (r, w2, t2) => (r, w2, (t1 ++ t2)%list)
        end
    end.

Definition raise {A} (e : exn) : M A := fun w => (inl e, w, []).

Definition emit (ev : event) : M unit := fun w => (inr tt, w, [ev]).

Definition print (line : string) : M unit := emit (Print line).

(** A pure call into the library, or a read of the file system. *)
Definition lift {A} (r : result A) : M A := fun w => (r, w, []).

Definition read {A} (f : world -> result A) : M A := fun w => (f w, w, []).

(** [try: body  except Exception as e: handler e] *)
Definition try_except {A} (body : M A) (handler : exn -> M A) : M A :=
  fun w =>
    match body w with
    | (inl e, w1, t1) =>
        match handler e w1 with
        | (r, w2, t2) => (r, w2, (t1 ++ t2)%list)
        end
    | (inr a, w1, t1) => (inr a, w1, t1)
    end.

(** [try: body  finally: cleanup] *)
Definition try_finally {A} (body : M A) (cleanup : M unit) : M A :=
  fun w =>
    match body w with
    | (r, w1, t1) =>
        match cleanup w1 with
        | (inl e, w2, t2) => (inl e, w2, (t1 ++ t2)%list)
        | (inr _, w2, t2) => (r, w2, (t1 ++ t2)%list)
        end
    end.

Notation "x <- m ;; k" := (bind m (fun x => k))
  (at level 61, m at next level, right associativity).
Notation "m ;; k" := (bind m (fun _ => k))
  (at level 61, right associativity).

(** [for x in l: body x] *)
Fixpoint for_each {A} (l : list A) (body : A -> M unit) : M unit :=
  match l with
  | [] => ret tt
  | x :: r => body x ;; for_each r body
  end.

(** [if not cond: raise e] *)
Definition check (cond : bool) (e : exn) : M unit :=
  if cond then ret tt else raise e.

(** [if not isinstance(v, str): raise TypeError(msg)]; afterwards [v] is a
    string. *)
Definition expect_str (v : pyval) (msg : string) : M string :=
  match v with
  | PyStr s => ret s
  | _ => raise (Exn TypeError msg)
  end.

(** [if not isinstance(v, float): raise TypeError(msg)] *)
Definition expect_float (v : pyval) (msg : string) : M float :=
  match v with
  | PyFloat f => ret f
  | _ => raise (Exn TypeError msg)
  end.

(** [v == s] for a string literal [s]. *)
Definition eq_str (v : pyval) (s : string) : bool :=
  match v with
  | PyStr s' => String.eqb s' s
  | _ => false
  end.

(** The [except TypeError / except ValueError / except Exception] clauses
    shared by [resize], [build_output_path] and [add_watermark]: print the
    message, fall off the end of the function. *)
Definition report (e : exn) : M unit :=
  match exn_kind e with
  | TypeError => print ("TypeError: " ++ exn_msg e)
  | ValueError => print ("ValueError: " ++ exn_msg e)
  | OtherException => print ("Error: " ++ exn_msg e)
  end.

(** The [except TypeError / except Exception] clauses of
    [add_watermarks_to_directory]. *)
Definition report_directory (e : exn) : M unit :=
  match exn_kind e with
  | TypeError => print ("TypeError: " ++ exn_msg e)
  | _ => print ("Error: " ++ exn_msg e)
  end.

(** ** [offset] (lines 14-46) *)

Definition invalid_position_msg : string :=
  "Invalid position provided. Possible values: 'top-left', 'bottom-left', 'top-right', 'bottom-right', 'center'".

(** The [try] block. *)
Definition offset_body (original_image watermark : image) (position : pyval)
  : result (Z * Z) :=
  if eq_str position "top-left" then
    inr (0, 0)
  else if eq_str position "bottom-left" then
    inr (0, snd (size original_image) - snd (size watermark))
  else if eq_str position "top-right" then
    inr (fst (size original_image) - fst (size watermark), 0)
  else if eq_str position "bottom-right" then
    inr (fst (size original_image) - fst (size watermark),
         snd (size original_image) - snd (size watermark))
  else if eq_str position "center" then
    inr ((fst (size original_image) - fst (size watermark)) / 2,
         (snd (size original_image) - snd (size watermark)) / 2)
  else
    inl (Exn ValueError invalid_position_msg).

(** The function: the exception is caught, printed, and [None] is
    returned. *)
Definition offset (original_image watermark : image) (position : pyval)
  : M (option (Z * Z)) :=
  try_except
    (xy <- lift (offset_body original_image watermark position) ;;
     ret (Some xy))
    (fun e => print ("Error: " ++ exn_msg e) ;; ret None).

(** ** [resize] (lines 49-84)

    [original_image_size] is a pair of integers, as [im.size] is; the test
    of line 66 holds for it. *)
Definition resize_body (original_image_size : Z * Z) (scale_factor : pyval)
  : M (Z * Z) :=
  f <- expect_float scale_factor "scale_factor must be a float." ;;
  check (negb (float_le_zero f))
        (Exn ValueError "scale_factor must be greater than 0.") ;;
  let '(width, height) := original_image_size in
  wf <- lift (int_mul_float width f) ;;
  resized_width <- lift (int_of_float wf) ;;
  hf <- lift (int_mul_float height f) ;;
  resized_height <- lift (int_of_float hf) ;;
  ret (resized_width, resized_height).

Definition resize (original_image_size : Z * Z) (scale_factor : pyval)
  : M (option (Z * Z)) :=
  try_except
    (resized_values <- resize_body original_image_size scale_factor ;;
     ret (Some resized_values))
    (fun e => report e ;; ret None).

(** ** [build_output_path] (lines 87-121) *)
Definition build_output_path_body (file_name output_path : pyval)
  : M string :=
  file_name <- expect_str file_name "file_name must be a string." ;;
  output_path <- expect_str output_path "output_path must be a string." ;;
  check (negb (String.eqb file_name EmptyString
               || String.eqb output_path EmptyString))
        (Exn ValueError "file_name and output_path cannot be empty strings.") ;;
  let output_file_name := "watermarked_" ++ file_name in
  let output_file_path := path_join output_path output_file_name in
  ret output_file_path.

Definition build_output_path (file_name output_path : pyval)
  : M (option string) :=
  try_except
    (output_file_path <- build_output_path_body file_name output_path ;;
     ret (Some output_file_path))
    (fun e => report e ;; ret None).

(** ** [add_watermark] (lines 124-185) *)

(** A library call: recorded, then its result. *)
Definition call {A} (ev : event) (r : result A) : M A :=
  emit ev ;; lift r.

(** [with Image.open(path) as im: body im] *)
Definition with_open {A} (path : string) (body : image -> M A) : M A :=
  emit (Open path) ;;
  im <- read (Image_open path) ;;
  try_finally (body im) (emit (Close path)).

(** [im.save(path)] *)
Definition save (im : image) (path : option string) : M unit :=
  fun w =>
    match Image_save im path w with
    | (Some e, w1) => (inl e, w1, [Save im path])
    | (None, w1) => (inr tt, w1, [Save im path])
    end.

Definition saved_msg (watermark_path file_name position : string) : string :=
  "Saved watermark (" ++ watermark_path ++ ") to image (" ++ file_name
  ++ ") at (" ++ position ++ ") position".

Definition add_watermark_body
  (image_path watermark_path output_path position scale_factor file_name : pyval)
  : M unit :=
  image_path <- expect_str image_path "image_path must be a string." ;;
  watermark_path <- expect_str watermark_path "watermark_path must be a string." ;;
  output_path <- expect_str output_path "output_path must be a string." ;;
  position <- expect_str position "position must be a string." ;;
  check (isinstance_float scale_factor)
        (Exn TypeError "scale_factor must be a float.") ;;
  file_name <- expect_str file_name "file_name must be a string." ;;
  check (existsb (String.eqb position) valid_positions)
        (Exn ValueError
           ("position must be one of " ++ repr_list valid_positions ++ ".")) ;;
  with_open image_path (fun image =>
  with_open watermark_path (fun watermark =>
    target <- resize (size image) scale_factor ;;
    watermark <- call (Resize watermark target) (Image_resize watermark target) ;;
    gray <- call (Grayscale watermark) (ImageOps_grayscale watermark) ;;
    watermark_mask <- call (Invert gray) (ImageOps_invert gray) ;;
    box <- offset image watermark (PyStr position) ;;
    image <- call (Paste image watermark box watermark_mask)
                  (Image_paste image watermark box watermark_mask) ;;
    output_file_path <- build_output_path (PyStr file_name) (PyStr output_path) ;;
    save image output_file_path ;;
    print (saved_msg watermark_path file_name position))).

Definition add_watermark
  (image_path watermark_path output_path position scale_factor file_name : pyval)
  : M unit :=
  try_except
    (add_watermark_body image_path watermark_path output_path position
                        scale_factor file_name)
    report.

(** ** [add_watermarks_to_directory] (lines 188-223) *)

(** The body of the [for] loop, for one entry of the listing. *)
Definition process_entry
  (directory : string) (watermark_path output_path position scale_factor : pyval)
  (filename : string) : M unit :=
  let filepath := path_join directory filename in
  if endswith_any (lower filepath) IMAGE_FILE_EXTENSIONS then
    add_watermark (PyStr filepath) watermark_path output_path position
                  scale_factor (PyStr (basename filepath))
  else ret tt.

Definition add_watermarks_to_directory
  (directory watermark_path output_path position scale_factor : pyval)
  : M unit :=
  try_except
    (directory <- expect_str directory "directory must be a string." ;;
     emit (Listdir directory) ;;
     entries <- read (os_listdir directory) ;;
     for_each entries
       (process_entry directory watermark_path output_path position
                      scale_factor))
    report_directory.

End Watermarker.

Arguments event : clear implicits.
Arguments M : clear implicits.

(** ** Notions used to state the properties *)

(** The pair [(int(w * f), int(h * f))] the way Python computes it, when
    both products are finite. *)
Definition trunc_product (i : Z) (f : float) : option Z :=
  match int_mul_float i f with
  | inr p => match int_of_float p with inr z => Some z | inl _ => None end
  | inl _ => None
  end.

Definition scaled_size (sz : Z * Z) (f : float) : option (Z * Z) :=
  match trunc_product (fst sz) f, trunc_product (snd sz) f with
  | Some a, Some b => Some (a, b)
  | _, _ => None
  end.

(** A number that is [<= 0]: a float, an int or a bool. *)
Definition le_zero (v : pyval) : bool :=
  match v with
  | PyFloat f => float_le_zero f
  | PyInt z => z <=? 0
  | PyBool b => negb b
  | _ => false
  end.

(** A directory entry "whose lowercased name ends with one of the
    recognized image extensions". *)
Definition is_image_name (name : string) : bool :=
  endswith_any (lower name) IMAGE_FILE_EXTENSIONS.

Definition is_listdir {L : ImageLibrary} (ev : event L) : bool :=
  match ev with Listdir _ => true | _ => false end.

Definition is_paste_or_save {L : ImageLibrary} (ev : event L) : bool :=
  match ev with Paste _ _ _ _ | Save _ _ => true | _ => false end.

Definition not_listdir {L : ImageLibrary} (ev : event L) : bool :=
  negb (is_listdir ev).

(** Every event of a computation satisfies [P], from any file system. *)
Definition emits_only {L : ImageLibrary} {A} (P : event L -> bool) (m : M L A)
  : Prop :=
  forall w, forallb P (snd (m w)) = true.

(** A string that holds a path separator. *)
Fixpoint has_sep (s : string) : bool :=
  match s with
  | EmptyString => false
  | String c r => (Ascii.eqb c sep || has_sep r)%bool
  end.

(** The reading of the Scale Factor as a multiplier of the watermark's own
    dimensions: every resize of a run is to the watermark's size scaled. *)
Definition targets_scale_watermark {L : ImageLibrary}
  (f : float) (t : list (event L)) : Prop :=
  forall wm target,
    In (Resize wm target) t -> target = scaled_size (size wm) f.

(** The Compositor applied to one entry of a directory, as the Batch Driver
    calls it. *)
Definition compositor_on {L : ImageLibrary}
  (directory : string) (watermark_path output_path position scale_factor : pyval)
  (filename : string) : M L unit :=
  add_watermark (PyStr (path_join directory filename)) watermark_path
                output_path position scale_factor
                (PyStr (basename (path_join directory filename))).

(** ** A small instance of the library, to run the program on

    Images are their sizes. A file is an image or unreadable; a directory
    has a listing. Resizing needs positive dimensions, saving needs a known
    extension. *)
Module Toy.

Record fs : Type := Fs {
  files : list (string * option (Z * Z));
  dirs : list (string * list string)
}.

Fixpoint lookup {A} (k : string) (l : list (string * A)) : option A :=
  match l with
  | [] => None
  | (k', v) :: r => if String.eqb k k' then Some v else lookup k r
  end.

Definition listdir (path : string) (w : fs) : result (list string) :=
  match lookup path (dirs w) with
  | Some l => inr l
  | None => inl (Exn OtherException "No such file or directory")
  end.

Definition open (path : string) (w : fs) : result (Z * Z) :=
  match lookup path (files w) with
  | Some (Some im) => inr im
  | Some None => inl (Exn OtherException "cannot identify image file")
  | None => inl (Exn OtherException "No such file or directory")
  end.

Definition resize_image (im : Z * Z) (target : option (Z * Z)) : result (Z * Z) :=
  match target with
  | Some (w, h) =>
      if ((0 <? w) && (0 <? h))%bool then inr (w, h)
      else inl (Exn ValueError "height and width must be > 0")
  | None => inl (Exn TypeError "'NoneType' object is not iterable")
  end.

Definition paste (base im : Z * Z) (box : option (Z * Z)) (mask : Z * Z)
  : result (Z * Z) :=
  if ((fst im =? fst mask) && (snd im =? snd mask))%bool then inr base
  else inl (Exn ValueError "images do not match").

Definition save_image (im : Z * Z) (path : option string) (w : fs)
  : option exn * fs :=
  match path with
  | Some p =>
      if endswith_any (lower p) IMAGE_FILE_EXTENSIONS
      then (None, Fs ((p, Some im) :: files w) (dirs w))
      else (Some (Exn ValueError "unknown file extension"), w)
  | None => (Some (Exn OtherException "'NoneType' object has no attribute 'read'"), w)
  end.

Definition lib : ImageLibrary := {|
  world := fs;
  image := Z * Z;
  size := fun im => im;
  os_listdir := listdir;
  Image_open := open;
  Image_resize := resize_image;
  ImageOps_grayscale := fun im => inr im;
  ImageOps_invert := fun im => inr im;
  Image_paste := paste;
  Image_save := save_image
|}.

(** A directory with an unreadable [a.png], a text file, [c.JPG] and a
    subdirectory; a watermark next to it. *)
Definition pics : fs := {|
  files := [("/pics/a.png", None);
            ("/pics/b.txt", None);
            ("/pics/c.JPG", Some (200, 100));
            ("/wm.png", Some (50, 50))];
  dirs := [("/pics", ["a.png"; "b.txt"; "c.JPG"; "sub"]); ("/pics/sub", [])]
|}.

(** The arguments of a run on it. *)
Definition wm_path : pyval := PyStr "/wm.png".
Definition out_dir : pyval := PyStr "/out".
Definition center : pyval := PyStr "center".
Definition half : pyval := PyFloat float_half.

End Toy.

(** ** The command line (lines 226-274)

    [argparse] turns the command line into the options that are present on
    it, each a string; the program supplies the defaults. The shell around
    the program is a second interface: the working directory, the standard
    input, and the tests and calls of [os] the main block makes. *)
Record cli : Type := Cli {
  cli_input : option string;
  cli_watermark : option string;
  cli_watermark_position : option string;
  cli_scale_watermark : option string;
  cli_output_directory : option string
}.

(** What [parser.parse_args()] returns. *)
Record namespace : Type := Namespace {
  ns_input : option string;
  ns_watermark : option string;
  ns_watermark_position : string;
  ns_scale_watermark : pyval;
  ns_output_directory : string
}.

(** The [add_argument] calls: no option has a [type], so a value given on
    the command line stays a string; the defaults are [center], the float
    [0.5] and [os.getcwd() + "/watermarked_images"]. *)
Definition parse_args (c : cli) (cwd : string) : namespace :=
  {| ns_input := cli_input c;
     ns_watermark := cli_watermark c;
     ns_watermark_position :=
       match cli_watermark_position c with Some p => p | None => "center" end;
     ns_scale_watermark :=
       match cli_scale_watermark c with
       | Some s => PyStr s
       | None => PyFloat float_half
       end;
     ns_output_directory :=
       match cli_output_directory c with
       | Some d => d
       | None => cwd ++ "/watermarked_images"
       end |}.

Class Shell (L : ImageLibrary) : Type := {
  (** [os.getcwd()] *)
  os_getcwd : world -> result string;
  (** [input(prompt)]: the line read, and the input that is left *)
  input_line : world -> result string * world;
  (** [os.makedirs(path, exist_ok=True)] *)
  os_makedirs : string -> world -> option exn * world;
  (** [os.path.isfile(path)] and [os.path.isdir(path)] *)
  os_path_isfile : string -> world -> bool;
  os_path_isdir : string -> world -> bool
}.

(** How the main block ends when no exception escapes it: it runs off its
    end, or it calls [exit()]. *)
Inductive outcome : Type := Finished | Exited.

Section CommandLine.

Context {L : ImageLibrary} {S : Shell L}.

Notation "x <- m ;; k" := (bind m (fun x => k))
  (at level 61, m at next level, right associativity).
Notation "m ;; k" := (bind m (fun _ => k))
  (at level 61, right associativity).

(** [input(prompt)]: the prompt is written (recorded as a printed line), a
    line is read. *)
Definition input (prompt : string) : M L string :=
  emit (Print prompt) ;;
  fun w => match input_line w with (r, w1) => (r, w1, []) end.

Definition makedirs (path : string) : M L unit :=
  fun w =>
    match os_makedirs path w with
    | (Some e, w1) => (inl e, w1, [])
    | (None, w1) => (inr tt, w1, [])
    end.

Definition test (f : world -> bool) : M L bool := fun w => (inr (f w), w, []).

(** [if not v: v = input(prompt)] for an option of the namespace: [None]
    and the empty string are false. *)
Definition or_input (v : option string) (prompt : string) : M L string :=
  match v with
  | Some s => if String.eqb s EmptyString then input prompt else ret s
  | None => input prompt
  end.

Definition main (c : cli) : M L outcome :=
  cwd <- read os_getcwd ;;
  let args := parse_args c cwd in
  args_input <- or_input (ns_input args)
    "Enter path to image file or directory of images that you want to watermark: " ;;
  args_watermark <- or_input (ns_watermark args)
    "Enter path to watermark file: " ;;
  makedirs (ns_output_directory args) ;;
  is_file <- test (os_path_isfile args_input) ;;
  if is_file then
    add_watermark (PyStr args_input) (PyStr args_watermark)
                  (PyStr (ns_output_directory args))
                  (PyStr (ns_watermark_position args))
                  (ns_scale_watermark args)
                  (PyStr (basename args_input)) ;;
    ret Finished
  else
    is_dir <- test (os_path_isdir args_input) ;;
    if is_dir then
      add_watermarks_to_directory (PyStr args_input) (PyStr args_watermark)
                                  (PyStr (ns_output_directory args))
                                  (PyStr (ns_watermark_position args))
                                  (ns_scale_watermark args) ;;
      ret Finished
    else
      print ("Error: " ++ args_input ++ " does not exist") ;;
      ret Exited.

End CommandLine.

(** ** Further notions used to state properties *)

Definition is_str (v : pyval) : bool :=
  match v with PyStr _ => true | _ => false end.

(** [position] is one of the five strings. *)
Definition is_valid_position (position : pyval) : bool :=
  match position with
  | PyStr p => existsb (String.eqb p) valid_positions
  | _ => false
  end.

(** The arguments [add_watermark] accepts before it touches a file, in the
    order of its tests (lines 146-163): five strings and a float, and a
    position among the five. *)
Definition valid_args
  (image_path watermark_path output_path position scale_factor file_name : pyval)
  : bool :=
  (is_str image_path && is_str watermark_path && is_str output_path
   && is_str position && isinstance_float scale_factor && is_str file_name
   && is_valid_position position)%bool.

(** The same for the arguments the Batch Driver hands on unchanged. *)
Definition valid_config (watermark_path output_path position scale_factor : pyval)
  : bool :=
  (is_str watermark_path && is_str output_path && is_str position
   && isinstance_float scale_factor && is_valid_position position)%bool.

(** The block under the [with] of [add_watermark] (lines 167-178), for the
    two opened images. *)
Definition with_block {L : ImageLibrary}
  (watermark_path output_path position file_name : string)
  (scale_factor : pyval) (image watermark : image) : M L unit :=
  bind (resize (size image) scale_factor) (fun target =>
  bind (call (Resize watermark target) (Image_resize watermark target))
       (fun watermark =>
  bind (call (Grayscale watermark) (ImageOps_grayscale watermark)) (fun gray =>
  bind (call (Invert gray) (ImageOps_invert gray)) (fun watermark_mask =>
  bind (offset image watermark (PyStr position)) (fun box =>
  bind (call (Paste image watermark box watermark_mask)
             (Image_paste image watermark box watermark_mask)) (fun image =>
  bind (build_output_path (PyStr file_name) (PyStr output_path))
       (fun output_file_path =>
  bind (save image output_file_path) (fun _ =>
  print (saved_msg watermark_path file_name position))))))))).

(** Every value a computation returns satisfies [Q]. *)
Definition returns_only {L : ImageLibrary} {A} (Q : A -> Prop) (m : M L A)
  : Prop :=
  forall w a w' t, m w = (inr a, w', t) -> Q a.

Definition is_open_or_close {L : ImageLibrary} (ev : event L) : bool :=
  match ev with Open _ | Close _ => true | _ => false end.

Definition is_print {L : ImageLibrary} (ev : event L) : bool :=
  match ev with Print _ => true | _ => false end.

Definition no_paste_or_save {L : ImageLibrary} (ev : event L) : bool :=
  negb (is_paste_or_save ev).

Definition not_open_or_close {L : ImageLibrary} (ev : event L) : bool :=
  negb (is_open_or_close ev).

(** A line printed by an [except] clause. *)
Definition is_error_line (line : string) : bool :=
  (startswith line "TypeError: " || startswith line "ValueError: "
   || startswith line "Error: ")%bool.

(** A library call, or an error line. *)
Definition call_or_error_line {L : ImageLibrary} (ev : event L) : bool :=
  match ev with Print line => is_error_line line | _ => true end.

(** A computation that returns from any file system, leaves it as it was
    and prints error lines at most. *)
Definition only_reports {L : ImageLibrary} {A} (m : M L A) : Prop :=
  forall w, exists a t,
    m w = (inr a, w, t) /\ forallb call_or_error_line t = true.


(** A [save] goes to one of the allowed paths. *)
Definition saves_within {L : ImageLibrary} (allowed : list string)
  (ev : event L) : bool :=
  match ev with
  | Save _ (Some p) => existsb (String.eqb p) allowed
  | Save _ None => false
  | _ => true
  end.

(** The sign of a float that has one: zeros, finite numbers, infinities. *)
Definition float_sign (f : float) : option bool :=
  match f with
  | S754_zero s | S754_infinity s | S754_finite s _ _ => Some s
  | S754_nan => None
  end.

(** A shell for the small file system: nothing to read on the standard
    input, the working directory is [/home], directories can always be
    made (the listing of the small file system is left as it is). *)
Module ToyShell.

Definition isfile (path : string) (w : @world Toy.lib) : bool :=
  match Toy.lookup path (Toy.files w) with Some _ => true | None => false end.

Definition isdir (path : string) (w : @world Toy.lib) : bool :=
  match Toy.lookup path (Toy.dirs w) with Some _ => true | None => false end.

Definition shell : Shell Toy.lib := {|
  os_getcwd := fun _ : @world Toy.lib => inr "/home";
  input_line := fun w : @world Toy.lib =>
    (inl (Exn OtherException "EOF when reading a line"), w);
  os_makedirs := fun _ (w : @world Toy.lib) => (None, w);
  os_path_isfile := isfile;
  os_path_isdir := isdir
|}.

End ToyShell.

(** A computation without any I/O: from every file system it ends with the
    file system as it was and no event, not even a printed line. *)
Definition no_io {L : ImageLibrary} {A} (m : M L A) : Prop :=
  forall w, exists r, m w = (r, w, []).

(** Every subdirectory among the entries is passed over: the run does not
    try to open it. [is_dir] tells which paths are directories. *)
Definition subdirectories_skipped {L : ImageLibrary}
  (is_dir : string -> bool) (directory : string) (entries : list string)
  (t : list (event L)) : Prop :=
  forall name,
    In name entries ->
    is_dir (path_join directory name) = true ->
    ~ In (Open (path_join directory name)) t.

(** A directory whose only entry is a subdirectory named like an image;
    opening it as an image fails. *)
Definition named_like_image : Toy.fs := {|
  Toy.files := [("/names/dir.png", None); ("/wm.png", Some (50, 50))];
  Toy.dirs := [("/names", ["dir.png"]); ("/names/dir.png", [])]
|}.

(** * Properties *)

(** ** Helper lemmas: strings, floats *)

Lemma existsb_eqb_In (p : string) (l : list string) :
  existsb (String.eqb p) l = true <-> In p l.
Proof.
  rewrite existsb_exists. split.
  - intros [x [Hx He]]. apply String.eqb_eq in He. now subst.
  - intros H. exists p. split; [assumption | apply String.eqb_refl].
Qed.

Lemma existsb_eqb_not_In (p : string) (l : list string) :
  ~ In p l -> existsb (String.eqb p) l = false.
Proof.
  intros H. destruct (existsb (String.eqb p) l) eqn:E; [| reflexivity].
  apply existsb_eqb_In in E. contradiction.
Qed.

Lemma eqb_of_not_In (p q : string) (l : list string) :
  ~ In p l -> In q l -> String.eqb p q = false.
Proof.
  intros Hn Hq. apply String.eqb_neq. intros ->. contradiction.
Qed.

(** A positive float is not [<= 0]. *)
Lemma float_pos_not_le_zero (f : float) :
  float_pos f = true -> float_le_zero f = false.
Proof.
  destruct f as [s | s | | s m e]; try destruct s; cbn; congruence.
Qed.

(** [int(f)] is the integer part toward zero: for a positive finite float
    [m * 2^e] it is the largest integer not above it, and the value of a
    negative one is the opposite of that of its absolute value. *)
Lemma float_trunc_pos (m : positive) (e : Z) :
  e < 0 ->
  float_trunc false m e * 2 ^ (- e) <= Z.pos m
  < (float_trunc false m e + 1) * 2 ^ (- e).
Proof.
  intros He. unfold float_trunc.
  destruct (0 <=? e) eqn:E; [apply Z.leb_le in E; lia |].
  assert (Hp : 0 < 2 ^ (- e)) by (apply Z.pow_pos_nonneg; lia).
  pose proof (Z.div_mod (Z.pos m) (2 ^ (- e)) ltac:(lia)) as Hdm.
  pose proof (Z.mod_pos_bound (Z.pos m) (2 ^ (- e)) Hp) as Hb.
  nia.
Qed.

Lemma float_trunc_neg (m : positive) (e : Z) :
  float_trunc true m e = - float_trunc false m e.
Proof. reflexivity. Qed.

Section Properties.

Context {L : ImageLibrary}.

Implicit Types (w : world) (t : list (event L)).

(** ** Offset Calculation *)

(** C1. For every base image and watermark, [offset] returns, without
    printing anything: (0, 0) for top-left; (0, base.height - wm.height)
    for bottom-left; (base.width - wm.width, 0) for top-right;
    (base.width - wm.width, base.height - wm.height) for bottom-right; and
    for center the two differences halved with floor division. *)
Theorem offset_positions (base wm : image) (w : world) :
  let bw := fst (size base) in
  let bh := snd (size base) in
  let ww := fst (size wm) in
  let wh := snd (size wm) in
  offset base wm (PyStr "top-left") w = (inr (Some (0, 0)), w, [])
  /\ offset base wm (PyStr "bottom-left") w = (inr (Some (0, bh - wh)), w, [])
  /\ offset base wm (PyStr "top-right") w = (inr (Some (bw - ww, 0)), w, [])
  /\ offset base wm (PyStr "bottom-right") w
     = (inr (Some (bw - ww, bh - wh)), w, [])
  /\ offset base wm (PyStr "center") w
     = (inr (Some ((bw - ww) / 2, (bh - wh) / 2)), w, []).
Proof.
  repeat split; reflexivity.
Qed.

(** C2. When the watermark is no larger than the base image in both
    dimensions, for each of the five positions [offset] returns a pair
    (x, y) with 0 <= x, 0 <= y, x + wm.width <= base.width and
    y + wm.height <= base.height. *)
Theorem offset_within_bounds (base wm : image) (position : string) (w : world) :
  fst (size wm) <= fst (size base) ->
  snd (size wm) <= snd (size base) ->
  In position valid_positions ->
  exists x y,
    offset base wm (PyStr position) w = (inr (Some (x, y)), w, [])
    /\ 0 <= x /\ 0 <= y
    /\ x + fst (size wm) <= fst (size base)
    /\ y + snd (size wm) <= snd (size base).
Proof.
  intros Hw Hh Hin.
  assert (Hx : 0 <= (fst (size base) - fst (size wm)) / 2
               <= fst (size base) - fst (size wm)).
  { split; [apply Z.div_pos; lia | apply Z.div_le_upper_bound; lia]. }
  assert (Hy : 0 <= (snd (size base) - snd (size wm)) / 2
               <= snd (size base) - snd (size wm)).
  { split; [apply Z.div_pos; lia | apply Z.div_le_upper_bound; lia]. }
  simpl in Hin.
  destruct Hin as [<- | [<- | [<- | [<- | [<- | []]]]]];
    do 2 eexists; (split; [reflexivity |]); lia.
Qed.

(** C3. For a position string outside the five valid ones, the [try] block
    of [offset] raises a ValueError, which [offset] prints before returning
    [None]; and [add_watermark], whatever its other arguments, prints one
    line and returns: the file system is unchanged and there is no paste
    and no save (no library call at all). *)
Theorem invalid_position_no_compositing (position : string) :
  ~ In position valid_positions ->
  (forall base wm w,
      offset_body base wm (PyStr position)
      = inl (Exn ValueError invalid_position_msg)
      /\ offset base wm (PyStr position) w
         = (inr None, w, [Print ("Error: " ++ invalid_position_msg)]))
  /\ (forall image_path watermark_path output_path scale_factor file_name w,
         exists line,
           add_watermark image_path watermark_path output_path
                         (PyStr position) scale_factor file_name w
           = (inr tt, w, [Print line])
           /\ existsb is_paste_or_save [Print line] = false).
Proof.
  intros Hn.
  assert (E : forall q, In q valid_positions -> String.eqb position q = false).
  { intros q Hq. now apply (eqb_of_not_In position q valid_positions). }
  assert (Ebody : forall base wm,
             offset_body base wm (PyStr position)
             = inl (Exn ValueError invalid_position_msg)).
  { intros base wm. unfold offset_body, eq_str.
    rewrite !E by (simpl; tauto). reflexivity. }
  split.
  - intros base wm w. split; [apply Ebody |].
    unfold offset, try_except, bind, lift. rewrite Ebody. reflexivity.
  - intros ip wp op sf fn w.
    pose proof (existsb_eqb_not_In position valid_positions Hn) as Ev.
    unfold add_watermark, add_watermark_body, try_except.
    destruct ip; try (eexists; split; reflexivity).
    destruct wp; try (eexists; split; reflexivity).
    destruct op; try (eexists; split; reflexivity).
    destruct sf; try (eexists; split; reflexivity).
    destruct fn; try (eexists; split; reflexivity).
    cbn [expect_str bind ret check isinstance_float app].
    rewrite Ev. eexists; split; reflexivity.
Qed.

(** ** Resize Calculation *)

Lemma resize_finite_products (width height : Z) (f x y : float) (w : world) :
  float_pos f = true ->
  int_mul_float width f = inr x ->
  int_mul_float height f = inr y ->
  is_finite x = true ->
  is_finite y = true ->
  exists a b,
    int_of_float x = inr a /\ int_of_float y = inr b
    /\ resize (width, height) (PyFloat f) w = (inr (Some (a, b)), w, []).
Proof.
  intros Hpos Hx Hy Fx Fy.
  apply float_pos_not_le_zero in Hpos.
  unfold resize, resize_body, try_except, bind, expect_float, check, ret, lift.
  rewrite Hpos, Hx, Hy. cbn [negb].
  destruct x as [sx | sx | | sx mx ex]; try discriminate Fx;
    destruct y as [sy | sy | | sy my ey]; try discriminate Fy;
    do 2 eexists; repeat split; reflexivity.
Qed.

(** When a product is not finite, [resize] prints and returns [None]. *)
Lemma resize_not_finite (width height : Z) (f : float) (w : world) :
  scaled_size (width, height) f = None ->
  exists line, resize (width, height) (PyFloat f) w = (inr None, w, [Print line]).
Proof.
  unfold scaled_size, trunc_product, resize, resize_body, try_except, bind,
    expect_float, check, ret, lift, report. cbn [fst snd].
  destruct (float_le_zero f); cbn [negb]; [intros _; eexists; reflexivity |].
  destruct (int_mul_float width f) as [[k m] | x]; cbn.
  { intros _. destruct k; eexists; reflexivity. }
  destruct (int_of_float x) as [[k m] | a]; cbn.
  { intros _. destruct k; eexists; reflexivity. }
  destruct (int_mul_float height f) as [[k m] | y]; cbn.
  { intros _. destruct k; eexists; reflexivity. }
  destruct (int_of_float y) as [[k m] | b]; cbn.
  { intros _. destruct k; eexists; reflexivity. }
  discriminate.
Qed.

(** C4, amended. For every size (w, h) and every float s > 0 such that the
    double-precision products w * s and h * s are finite, [resize] returns
    (int(w * s), int(h * s)): each dimension multiplied by the factor in
    floating point and the product truncated toward zero. In particular
    resize((200, 100), 0.5) is (100, 50) and resize((101, 101), 1/3) is
    (33, 33). *)
Theorem resize_truncated_products (w : world) :
  (forall width height f x y,
      float_pos f = true ->
      int_mul_float width f = inr x ->
      int_mul_float height f = inr y ->
      is_finite x = true ->
      is_finite y = true ->
      exists a b,
        int_of_float x = inr a /\ int_of_float y = inr b
        /\ resize (width, height) (PyFloat f) w = (inr (Some (a, b)), w, []))
  /\ resize (200, 100) (PyFloat float_half) w = (inr (Some (100, 50)), w, [])
  /\ resize (101, 101) (PyFloat float_third) w = (inr (Some (33, 33)), w, []).
Proof.
  split; [| split].
  - intros. now apply resize_finite_products.
  - vm_compute. reflexivity.
  - vm_compute. reflexivity.
Qed.

(** C5. For every size and every scale factor that is a number [<= 0]
    (zero, negative zero, any negative value), [resize] prints an error, a
    ValueError for a float and a TypeError otherwise, and returns [None]. *)
Theorem resize_rejects_nonpositive (sz : Z * Z) (scale_factor : pyval) (w : world) :
  le_zero scale_factor = true ->
  exists line,
    resize sz scale_factor w = (inr None, w, [Print line])
    /\ (line = "ValueError: scale_factor must be greater than 0."
        \/ line = "TypeError: scale_factor must be a float.").
Proof.
  intros H. destruct sz as [width height].
  destruct scale_factor as [| b | z | f | s]; try discriminate H.
  - eexists. split; [reflexivity | now right].
  - eexists. split; [reflexivity | now right].
  - cbn [le_zero] in H.
    unfold resize, resize_body, try_except, bind, expect_float, check, ret.
    rewrite H. eexists. split; [reflexivity | now left].
Qed.

(** C10. A scale factor that is not a float (the int 1, say) makes [resize]
    print a TypeError and return [None], and makes [add_watermark] print a
    TypeError and return without any library call. *)
Theorem non_float_scale_factor_rejected (scale_factor : pyval) :
  isinstance_float scale_factor = false ->
  (forall sz w,
      resize sz scale_factor w
      = (inr None, w, [Print "TypeError: scale_factor must be a float."]))
  /\ (forall image_path watermark_path output_path position file_name w,
         exists msg,
           add_watermark image_path watermark_path output_path position
                         scale_factor file_name w
           = (inr tt, w, [Print ("TypeError: " ++ msg)]))
  /\ (forall image_path watermark_path output_path position file_name w,
         add_watermark (PyStr image_path) (PyStr watermark_path)
                       (PyStr output_path) (PyStr position)
                       scale_factor (PyStr file_name) w
         = (inr tt, w, [Print "TypeError: scale_factor must be a float."])).
Proof.
  intros H. split; [| split].
  - intros [width height] w.
    destruct scale_factor; try discriminate H; reflexivity.
  - intros ip wp op pos fn w.
    unfold add_watermark, add_watermark_body, try_except.
    destruct ip; try (eexists; reflexivity).
    destruct wp; try (eexists; reflexivity).
    destruct op; try (eexists; reflexivity).
    destruct pos; try (eexists; reflexivity).
    destruct scale_factor; try discriminate H; eexists; reflexivity.
  - intros ip wp op pos fn w.
    destruct scale_factor; try discriminate H; reflexivity.
Qed.

(** ** Path Builder *)

Lemma eqb_empty_false (s : string) :
  s <> EmptyString -> String.eqb s EmptyString = false.
Proof. intros H. now apply String.eqb_neq. Qed.

(** The joined path, written out: the prefixed name never starts with a
    separator, so it is appended to the directory, after a separator unless
    the directory already ends with one. *)
Lemma path_join_watermarked (output_path file_name : string) :
  output_path <> EmptyString ->
  path_join output_path ("watermarked_" ++ file_name)
  = if endswith output_path "/"
    then output_path ++ "watermarked_" ++ file_name
    else output_path ++ "/" ++ "watermarked_" ++ file_name.
Proof.
  intros H. unfold path_join.
  rewrite (eqb_empty_false _ H).
  cbn [startswith String.prefix append sep].
  destruct (Ascii.ascii_dec "w" "/") as [E | _]; [discriminate E |].
  cbn [orb]. reflexivity.
Qed.

(** C6, amended. For non-empty strings, [build_output_path] returns
    join(output_directory, "watermarked_" + file_name), leaving the file
    system alone and printing nothing; it fails (prints the ValueError and
    returns [None]) exactly when one of the two strings is empty;
    build_output_path("cat.png", "/out") is "/out/watermarked_cat.png"; and
    for any two strings the function is free of I/O but for that one
    printed line: the file system is never changed, and the events are
    none or the ValueError line alone. *)
Theorem build_output_path_spec (file_name output_path : string) (w : world) :
  (file_name <> EmptyString -> output_path <> EmptyString ->
   build_output_path (PyStr file_name) (PyStr output_path) w
   = (inr (Some (path_join output_path ("watermarked_" ++ file_name))), w, []))
  /\ (build_output_path (PyStr file_name) (PyStr output_path) w
      = (inr None, w,
         [Print "ValueError: file_name and output_path cannot be empty strings."])
      <-> file_name = EmptyString \/ output_path = EmptyString)
  /\ build_output_path (PyStr "cat.png") (PyStr "/out") w
     = (inr (Some "/out/watermarked_cat.png"), w, [])
  /\ (exists r t,
         build_output_path (PyStr file_name) (PyStr output_path) w
         = (inr r, w, t)
         /\ (t = []
             \/ t = [Print "ValueError: file_name and output_path cannot be empty strings."])).
Proof.
  split; [| split; [| split]].
  - intros Hf Ho.
    unfold build_output_path, build_output_path_body, try_except, bind,
      expect_str, check, ret.
    rewrite (eqb_empty_false _ Hf), (eqb_empty_false _ Ho). reflexivity.
  - unfold build_output_path, build_output_path_body, try_except, bind,
      expect_str, check, ret.
    destruct (String.eqb_spec file_name EmptyString) as [Ef | Ef];
      destruct (String.eqb_spec output_path EmptyString) as [Eo | Eo]; cbn;
      (split; [intros H | intros [H | H]]);
      try tauto; try reflexivity; try contradiction; discriminate H.
  - reflexivity.
  - unfold build_output_path, build_output_path_body, try_except, bind,
      expect_str, check, ret.
    destruct (String.eqb file_name EmptyString);
      [do 2 eexists; split; [reflexivity | now right] |].
    destruct (String.eqb output_path EmptyString);
      do 2 eexists; (split; [reflexivity |]); [now right | now left].
Qed.

End Properties.

(** ** Strings: suffixes of joined paths *)

Lemma append_assoc (a b c : string) : (a ++ b) ++ c = a ++ (b ++ c).
Proof. induction a as [| x a IH]; cbn; [reflexivity | now rewrite IH]. Qed.

Lemma lower_append (a b : string) : lower (a ++ b) = lower a ++ lower b.
Proof. induction a as [| x a IH]; cbn; [reflexivity | now rewrite IH]. Qed.

Lemma length_eq_of_eqb (a b : string) :
  String.eqb a b = true -> String.length a = String.length b.
Proof. intros H. apply String.eqb_eq in H. now subst. Qed.

(** [endswith] one character at a time: a suffix of [c :: s] is the whole
    string or a suffix of [s]. *)
Lemma endswith_cons (c : ascii) (s p : string) :
  endswith (String c s) p = (String.eqb (String c s) p || endswith s p)%bool.
Proof.
  unfold endswith. cbn [String.length].
  destruct (Nat.leb (String.length p) (String.length s)) eqn:E1.
  - apply Nat.leb_le in E1.
    assert (E2 : Nat.leb (String.length p) (S (String.length s)) = true)
      by (apply Nat.leb_le; lia).
    rewrite E2. cbn [andb].
    replace (S (String.length s) - String.length p)%nat
      with (S (String.length s - String.length p)) by lia.
    cbn [slice_from].
    destruct (String.eqb (String c s) p) eqn:E3; [| reflexivity].
    apply length_eq_of_eqb in E3. cbn in E3. lia.
  - apply Nat.leb_gt in E1. cbn [andb]. rewrite orb_false_r.
    destruct (Nat.eq_dec (String.length p) (S (String.length s))) as [E | E].
    + rewrite E, Nat.leb_refl, Nat.sub_diag. reflexivity.
    + assert (E2 : Nat.leb (String.length p) (S (String.length s)) = false)
        by (apply Nat.leb_gt; lia).
      rewrite E2. cbn [andb].
      destruct (String.eqb (String c s) p) eqn:E3; [| reflexivity].
      apply length_eq_of_eqb in E3. cbn in E3. lia.
Qed.

Lemma endswith_empty (p : string) :
  endswith EmptyString p = String.eqb EmptyString p.
Proof. destruct p; reflexivity. Qed.

(** [endswith s p] holds exactly when [s] is some string followed by [p]. *)
Lemma endswith_spec (s p : string) :
  endswith s p = true <-> exists q, s = q ++ p.
Proof.
  split.
  - induction s as [| c s IH].
    + rewrite endswith_empty. intros H. apply String.eqb_eq in H.
      exists EmptyString. now subst.
    + rewrite endswith_cons. intros H. apply orb_true_iff in H.
      destruct H as [H | H].
      * apply String.eqb_eq in H. exists EmptyString. now subst.
      * destruct (IH H) as [q ->]. now exists (String c q).
  - intros [q ->]. induction q as [| c q IH]; cbn [append].
    + destruct p as [| c p]; [reflexivity |].
      rewrite endswith_cons, String.eqb_refl. reflexivity.
    + rewrite endswith_cons, IH. apply orb_true_r.
Qed.

Lemma has_sep_append_sep (a b : string) : has_sep (a ++ String sep b) = true.
Proof.
  induction a as [| c a IH]; cbn [append has_sep].
  - reflexivity.
  - rewrite IH. apply orb_true_r.
Qed.

(** A suffix without separator of [a/b] is a suffix of [b]. *)
Lemma endswith_after_sep (a b p : string) :
  has_sep p = false ->
  endswith (a ++ String sep b) p = endswith b p.
Proof.
  intros Hp.
  assert (Hne : forall x y, String.eqb (x ++ String sep y) p = false).
  { intros x y. apply String.eqb_neq. intros E.
    rewrite <- E, has_sep_append_sep in Hp. discriminate. }
  induction a as [| c a IH]; cbn [append].
  - pose proof (Hne EmptyString b) as H0. cbn [append] in H0.
    rewrite endswith_cons, H0. reflexivity.
  - pose proof (Hne (String c a) b) as H0. cbn [append] in H0.
    rewrite endswith_cons, IH, H0. reflexivity.
Qed.

(** [os.path.join] returns its second argument, or puts it after a
    separator. *)
Lemma path_join_cases (a b : string) :
  path_join a b = b \/ exists q, path_join a b = q ++ String sep b.
Proof.
  unfold path_join.
  destruct (startswith b (String sep EmptyString)); [now left |].
  destruct (String.eqb_spec a EmptyString) as [-> | Ha]; cbn [orb].
  - now left.
  - destruct (endswith a (String sep EmptyString)) eqn:E.
    + apply endswith_spec in E. destruct E as [q ->].
      right. exists q. now rewrite append_assoc.
    + right. now exists a.
Qed.

(** Line 212 tests the joined path; the outcome is that of the same test on
    the entry's name. *)
Lemma image_extension_of_filepath (directory filename : string) :
  endswith_any (lower (path_join directory filename)) IMAGE_FILE_EXTENSIONS
  = is_image_name filename.
Proof.
  unfold is_image_name.
  destruct (path_join_cases directory filename) as [-> | [q ->]];
    [reflexivity |].
  rewrite lower_append. cbn [lower].
  change (lower_ascii sep) with sep.
  unfold endswith_any, IMAGE_FILE_EXTENSIONS. cbn [existsb].
  rewrite !endswith_after_sep by reflexivity. reflexivity.
Qed.

(** The lowercased name ends with one of the extensions, in words. *)
Lemma is_image_name_spec (name : string) :
  is_image_name name = true
  <-> exists ext stem, In ext IMAGE_FILE_EXTENSIONS /\ lower name = stem ++ ext.
Proof.
  unfold is_image_name, endswith_any. rewrite existsb_exists. split.
  - intros [ext [Hin H]]. apply endswith_spec in H. destruct H as [q H].
    now exists ext, q.
  - intros [ext [q [Hin H]]]. exists ext. split; [assumption |].
    apply endswith_spec. now exists q.
Qed.

(** The name the output file is derived from is the entry's own name. *)
Lemma rfind_no_sep (s : string) : has_sep s = false -> rfind sep s = -1.
Proof.
  induction s as [| c s IH]; cbn [has_sep rfind]; [reflexivity |].
  intros H. apply orb_false_iff in H. destruct H as [Hc Hs].
  rewrite (IH Hs), Hc. reflexivity.
Qed.

Lemma rfind_append_sep (a b : string) : 0 <= rfind sep (a ++ String sep b).
Proof.
  induction a as [| c a IH]; cbn [append rfind].
  - destruct (0 <=? rfind sep b) eqn:E.
    + apply Z.leb_le in E. lia.
    + rewrite Ascii.eqb_refl. lia.
  - apply Z.leb_le in IH. rewrite IH. apply Z.leb_le in IH. lia.
Qed.

Lemma basename_after_sep (a b : string) :
  has_sep b = false -> basename (a ++ String sep b) = b.
Proof.
  intros Hb. unfold basename.
  induction a as [| c a IH]; cbn [append rfind].
  - rewrite (rfind_no_sep b Hb). reflexivity.
  - pose proof (rfind_append_sep a b) as Hr.
    apply Z.leb_le in Hr. rewrite Hr. apply Z.leb_le in Hr.
    replace (Z.to_nat (rfind sep (a ++ String sep b) + 1 + 1))
      with (S (Z.to_nat (rfind sep (a ++ String sep b) + 1))) by lia.
    cbn [slice_from]. exact IH.
Qed.

Lemma basename_path_join (directory filename : string) :
  has_sep filename = false ->
  basename (path_join directory filename) = filename.
Proof.
  intros H.
  destruct (path_join_cases directory filename) as [-> | [q ->]].
  - unfold basename. now rewrite (rfind_no_sep _ H).
  - now apply basename_after_sep.
Qed.

(** ** The monad: equations and the events of a computation *)

Section Effects.

Context {L : ImageLibrary}.

Notation "x <- m ;; k" := (bind m (fun x => k))
  (at level 61, m at next level, right associativity).
Notation "m ;; k" := (bind m (fun _ => k))
  (at level 61, right associativity).

Lemma bind_ret_l {A B} (a : A) (k : A -> M L B) (w : world) :
  bind (ret a) k w = k a w.
Proof. unfold bind, ret. destruct (k a w) as [[r w2] t2]. reflexivity. Qed.

Lemma bind_ext {A B} (m : M L A) (k k' : A -> M L B) (w : world) :
  (forall a w1, k a w1 = k' a w1) -> bind m k w = bind m k' w.
Proof.
  intros H. unfold bind. destruct (m w) as [[[e | a] w1] t1]; [reflexivity |].
  now rewrite H.
Qed.

Lemma bind_returns {A B} (m : M L A) (k : A -> M L B) w a w1 t1 r w2 t2 :
  m w = (inr a, w1, t1) -> k a w1 = (r, w2, t2) ->
  bind m k w = (r, w2, (t1 ++ t2)%list).
Proof. intros Hm Hk. unfold bind. now rewrite Hm, Hk. Qed.

Lemma for_each_app {A} (l1 l2 : list A) (body : A -> M L unit) (w : world) :
  for_each (l1 ++ l2)%list body w
  = (for_each l1 body ;; for_each l2 body) w.
Proof.
  revert w. induction l1 as [| x l1 IH]; intros w; cbn [for_each app].
  - now rewrite bind_ret_l.
  - unfold bind. destruct (body x w) as [[[e | []] w1] t1]; [reflexivity |].
    rewrite IH. unfold bind.
    destruct (for_each l1 body w1) as [[[e | []] w2] t2]; [reflexivity |].
    destruct (for_each l2 body w2) as [[r w3] t3].
    now rewrite app_assoc.
Qed.

(** The [except] clauses print one line and let the function return. *)
Lemma report_returns (e : exn) (w : world) :
  exists line, report e w = (inr tt, w, [Print line]).
Proof. destruct e as [[] m]; eexists; reflexivity. Qed.

Lemma report_directory_returns (e : exn) (w : world) :
  exists line, report_directory e w = (inr tt, w, [Print line]).
Proof. destruct e as [[] m]; eexists; reflexivity. Qed.

(** [add_watermark] never raises: it returns [None] from any file system and
    for any arguments. *)
Lemma add_watermark_returns
  (image_path watermark_path output_path position scale_factor file_name : pyval)
  (w : world) :
  exists w' t,
    add_watermark image_path watermark_path output_path position scale_factor
                  file_name w = (inr tt, w', t).
Proof.
  unfold add_watermark, try_except.
  destruct (add_watermark_body _ _ _ _ _ _ w) as [[[e | []] w1] t1].
  - destruct (report_returns e w1) as [line ->]. now do 2 eexists.
  - now do 2 eexists.
Qed.

Lemma for_each_returns {A} (l : list A) (body : A -> M L unit) :
  (forall x w, exists w' t, body x w = (inr tt, w', t)) ->
  forall w, exists w' t, for_each l body w = (inr tt, w', t).
Proof.
  intros Hb. induction l as [| x l IH]; intros w; cbn [for_each].
  - now do 2 eexists.
  - destruct (Hb x w) as (w1 & t1 & H1). destruct (IH w1) as (w2 & t2 & H2).
    do 2 eexists. eapply bind_returns; eassumption.
Qed.

(** *** Events *)

Lemma emits_ret {A} P (a : A) : emits_only P (ret (L:=L) a).
Proof. intros w. reflexivity. Qed.

Lemma emits_raise {A} P (e : exn) : emits_only P (raise (L:=L) (A:=A) e).
Proof. intros w. reflexivity. Qed.

Lemma emits_lift {A} P (r : result A) : emits_only P (lift (L:=L) r).
Proof. intros w. reflexivity. Qed.

Lemma emits_read {A} P (f : world -> result A) : emits_only P (read f).
Proof. intros w. reflexivity. Qed.

Lemma emits_emit P (ev : event L) : P ev = true -> emits_only P (emit ev).
Proof. intros H w. cbn. now rewrite H. Qed.

Lemma emits_bind {A B} P (m : M L A) (k : A -> M L B) :
  emits_only P m -> (forall a, emits_only P (k a)) -> emits_only P (bind m k).
Proof.
  intros Hm Hk w. unfold bind. specialize (Hm w).
  destruct (m w) as [[[e | a] w1] t1]; [exact Hm |].
  specialize (Hk a w1). destruct (k a w1) as [[r w2] t2].
  cbn in *. rewrite forallb_app, Hm, Hk. reflexivity.
Qed.

Lemma emits_try_except {A} P (m : M L A) (h : exn -> M L A) :
  emits_only P m -> (forall e, emits_only P (h e)) ->
  emits_only P (try_except m h).
Proof.
  intros Hm Hh w. unfold try_except. specialize (Hm w).
  destruct (m w) as [[[e | a] w1] t1]; [| exact Hm].
  specialize (Hh e w1). destruct (h e w1) as [[r w2] t2].
  cbn in *. rewrite forallb_app, Hm, Hh. reflexivity.
Qed.

Lemma emits_try_finally {A} P (m : M L A) (c : M L unit) :
  emits_only P m -> emits_only P c -> emits_only P (try_finally m c).
Proof.
  intros Hm Hc w. unfold try_finally. specialize (Hm w).
  destruct (m w) as [[r w1] t1].
  specialize (Hc w1). destruct (c w1) as [[[e | u] w2] t2];
    cbn in *; rewrite forallb_app, Hm, Hc; reflexivity.
Qed.

Lemma emits_for_each {A} P (l : list A) (body : A -> M L unit) :
  (forall x, emits_only P (body x)) -> emits_only P (for_each l body).
Proof.
  intros Hb. induction l as [| x l IH]; cbn [for_each].
  - apply emits_ret.
  - apply emits_bind; [apply Hb | intros _; exact IH].
Qed.

Lemma emits_check P (c : bool) (e : exn) : emits_only P (check (L:=L) c e).
Proof. destruct c; [apply emits_ret | apply emits_raise]. Qed.

Lemma emits_expect_str P (v : pyval) (msg : string) :
  emits_only P (expect_str (L:=L) v msg).
Proof. destruct v; first [apply emits_ret | apply emits_raise]. Qed.

Lemma emits_expect_float P (v : pyval) (msg : string) :
  emits_only P (expect_float (L:=L) v msg).
Proof. destruct v; first [apply emits_ret | apply emits_raise]. Qed.

Lemma emits_report P (e : exn) :
  (forall line, P (Print line) = true) -> emits_only P (report e).
Proof. intros H. destruct e as [[] m]; apply emits_emit, H. Qed.

Lemma emits_save P (im : image) (path : option string) :
  P (Save im path) = true -> emits_only P (save im path).
Proof.
  intros H w. unfold save.
  destruct (Image_save im path w) as [[e |] w1]; cbn; now rewrite H.
Qed.

Ltac emits_step :=
  first
    [ apply emits_ret | apply emits_raise | apply emits_lift | apply emits_read
    | apply emits_check | apply emits_expect_str | apply emits_expect_float
    | apply emits_emit; reflexivity
    | apply emits_save; reflexivity
    | apply emits_report; reflexivity
    | apply emits_try_except; [| intros ?]
    | apply emits_try_finally
    | apply emits_bind; [| intros ?] ].

(** [add_watermark] never lists a directory. *)
Lemma add_watermark_no_listdir
  (image_path watermark_path output_path position scale_factor file_name : pyval) :
  emits_only not_listdir
    (add_watermark image_path watermark_path output_path position scale_factor
                   file_name).
Proof.
  unfold add_watermark, add_watermark_body, with_open, call, offset, resize,
    build_output_path, print.
  repeat emits_step.
  match goal with
  | |- context [size ?im] => destruct (size im) as [width height]
  end.
  repeat emits_step.
Qed.

End Effects.

(** ** Batch Driver *)

Section Batch.

Context {L : ImageLibrary}.

Variables (watermark_path output_path position scale_factor : pyval).

Notation "x <- m ;; k" := (bind m (fun x => k))
  (at level 61, m at next level, right associativity).
Notation "m ;; k" := (bind m (fun _ => k))
  (at level 61, right associativity).

(** One turn of the loop: the Compositor on a matching entry, nothing on any
    other. *)
Lemma process_entry_eq (directory filename : string) :
  process_entry directory watermark_path output_path position scale_factor
                filename
  = if is_image_name filename
    then compositor_on directory watermark_path output_path position
                       scale_factor filename
    else ret tt.
Proof.
  unfold process_entry. now rewrite image_extension_of_filepath.
Qed.

Lemma process_entry_returns (directory filename : string) (w : world) :
  exists w' t,
    process_entry directory watermark_path output_path position scale_factor
                  filename w = (inr tt, w', t).
Proof.
  rewrite process_entry_eq. destruct (is_image_name filename).
  - apply add_watermark_returns.
  - now do 2 eexists.
Qed.

(** The loop over a listing is the loop over its matching entries. *)
Lemma for_each_matching (directory : string) (entries : list string) (w : world) :
  for_each entries
    (process_entry directory watermark_path output_path position scale_factor) w
  = for_each (filter is_image_name entries)
      (compositor_on directory watermark_path output_path position
                     scale_factor) w.
Proof.
  revert w. induction entries as [| name entries IH]; intros w; [reflexivity |].
  cbn [for_each filter]. rewrite process_entry_eq.
  destruct (is_image_name name); cbn [for_each].
  - apply bind_ext. intros _ w1. apply IH.
  - rewrite bind_ret_l. apply IH.
Qed.

Lemma loop_returns (directory : string) (entries : list string) (w : world) :
  exists w' t,
    for_each entries
      (process_entry directory watermark_path output_path position scale_factor)
      w = (inr tt, w', t).
Proof.
  apply for_each_returns. intros x w0. apply process_entry_returns.
Qed.

(** The driver, once the listing is known: the call to [os.listdir], then
    the loop; no exception reaches its [except] clauses. *)
Lemma driver_unfold (directory : string) (entries : list string) (w : world) :
  os_listdir directory w = inr entries ->
  add_watermarks_to_directory (PyStr directory) watermark_path output_path
                              position scale_factor w
  = (emit (Listdir directory) ;;
     for_each entries
       (process_entry directory watermark_path output_path position
                      scale_factor)) w.
Proof.
  intros Hl.
  destruct (loop_returns directory entries w) as (w1 & t1 & H1).
  unfold add_watermarks_to_directory, try_except, bind, expect_str, ret, emit,
    read.
  rewrite Hl, H1. reflexivity.
Qed.

(** C7, amended. For every directory listing, the Batch Driver lists the
    directory once and then runs the Compositor on exactly the entries
    whose lowercased name ends with one of .jpg, .jpeg, .png, .gif, .bmp,
    in the order of the listing, whatever such an entry names: a file or a
    subdirectory, the kind of an entry is never tested. Any other entry,
    a subdirectory without such a name included, is passed over without an
    event and without a change to the file system, and no directory is
    listed besides the one given. *)
Theorem batch_driver_matching_entries
  (directory : string) (entries : list string) (w : world) :
  os_listdir directory w = inr entries ->
  add_watermarks_to_directory (PyStr directory) watermark_path output_path
                              position scale_factor w
  = (emit (Listdir directory) ;;
     for_each (filter is_image_name entries)
       (compositor_on directory watermark_path output_path position
                      scale_factor)) w
  /\ (forall name w1,
         is_image_name name = false ->
         process_entry directory watermark_path output_path position
                       scale_factor name w1 = (inr tt, w1, []))
  /\ (exists t,
         snd (add_watermarks_to_directory (PyStr directory) watermark_path
                output_path position scale_factor w)
         = Listdir directory :: t
         /\ forallb not_listdir t = true)
  /\ (forall name w1,
         is_image_name name = true ->
         process_entry directory watermark_path output_path position
                       scale_factor name w1
         = add_watermark (PyStr (path_join directory name)) watermark_path
             output_path position scale_factor
             (PyStr (basename (path_join directory name))) w1).
Proof.
  intros Hl.
  assert (Heq := driver_unfold directory entries w Hl).
  split; [| split; [| split]].
  - rewrite Heq. apply bind_ext. intros _ w1. apply for_each_matching.
  - intros name w1 Hn. rewrite process_entry_eq, Hn. reflexivity.
  - rewrite Heq. unfold bind, emit.
    assert (Hno : emits_only not_listdir
                    (for_each entries
                       (process_entry directory watermark_path output_path
                                      position scale_factor))).
    { apply emits_for_each. intros name. rewrite process_entry_eq.
      destruct (is_image_name name);
        [apply add_watermark_no_listdir | apply emits_ret]. }
    specialize (Hno w).
    destruct (for_each entries _ w) as [[r w1] t1].
    exists t1. split; [reflexivity | exact Hno].
  - intros name w1 Hn. rewrite process_entry_eq, Hn. reflexivity.
Qed.

(** C8. Take any entry of the listing, with the entries before it and after
    it. Whatever the Compositor does on it (it may fail for any reason), the
    call returns, and the driver goes on to run the Compositor on every
    matching entry after it, from the file system that call left. The
    driver's events are those of the three parts in order. *)
Theorem batch_failure_isolation
  (directory : string) (before : list string) (bad : string)
  (after : list string) (w : world) :
  os_listdir directory w = inr (before ++ bad :: after)%list ->
  exists w1 t1 w2 t2 w3 t3,
    for_each (filter is_image_name before)
      (compositor_on directory watermark_path output_path position
                     scale_factor) w = (inr tt, w1, t1)
    /\ process_entry directory watermark_path output_path position
                     scale_factor bad w1 = (inr tt, w2, t2)
    /\ for_each (filter is_image_name after)
         (compositor_on directory watermark_path output_path position
                        scale_factor) w2 = (inr tt, w3, t3)
    /\ add_watermarks_to_directory (PyStr directory) watermark_path
         output_path position scale_factor w
       = (inr tt, w3, (Listdir directory :: t1 ++ t2 ++ t3)%list).
Proof.
  intros Hl.
  destruct (loop_returns directory before w) as (w1 & t1 & H1).
  destruct (process_entry_returns directory bad w1) as (w2 & t2 & H2).
  destruct (loop_returns directory after w2) as (w3 & t3 & H3).
  exists w1, t1, w2, t2, w3, t3.
  rewrite <- !for_each_matching.
  repeat split; try assumption.
  rewrite (driver_unfold directory _ w Hl).
  eapply (bind_returns _ _ w tt w [Listdir directory]); [reflexivity |].
  rewrite for_each_app.
  eapply bind_returns; [exact H1 |].
  cbn [for_each]. eapply bind_returns; [exact H2 | exact H3].
Qed.

End Batch.

(** ** Compositor *)

Section Compositor.

Context {L : ImageLibrary}.

(** [resize] on a positive float, in terms of [scaled_size]. *)
Lemma resize_scaled_size (sz target : Z * Z) (f : float) (w : world) :
  float_pos f = true ->
  scaled_size sz f = Some target ->
  resize sz (PyFloat f) w = (inr (Some target), w, []).
Proof.
  intros Hpos Hs. destruct sz as [width height].
  apply float_pos_not_le_zero in Hpos.
  unfold scaled_size, trunc_product in Hs. cbn [fst snd] in Hs.
  unfold resize, resize_body, try_except, bind, expect_float, check, ret, lift.
  rewrite Hpos. cbn [negb].
  destruct (int_mul_float width f) as [e1 | x]; [discriminate Hs |].
  destruct (int_of_float x) as [e2 | a]; [discriminate Hs |].
  destruct (int_mul_float height f) as [e3 | y]; [discriminate Hs |].
  destruct (int_of_float y) as [e4 | b]; [discriminate Hs |].
  injection Hs as <-. reflexivity.
Qed.

(** A [with] block: the events of its body come after the [Open]. *)
Lemma with_open_events {A} (path : string) (body : image -> M L A)
  (w : world) (im : image) r w1 t1 :
  Image_open path w = inr im ->
  body im w = (r, w1, t1) ->
  with_open path body w = (r, w1, (Open path :: t1 ++ [Close path])%list).
Proof.
  intros Ho Hb.
  unfold with_open, bind, emit, read, try_finally.
  rewrite Ho, Hb. reflexivity.
Qed.

(** C9, amended. In the Compositor the Scale Factor multiplies the original
    image's dimensions: when both images open, the position is valid and the
    scale factor is a positive float with finite products, the size the
    watermark is resized to is (int(image.width * scale_factor),
    int(image.height * scale_factor)), whatever the watermark's own size. *)
Theorem watermark_resized_to_scaled_image
  (image_path watermark_path output_path position file_name : string)
  (f : float) (w : world) (im wm : image) (target : Z * Z) :
  In position valid_positions ->
  float_pos f = true ->
  Image_open image_path w = inr im ->
  Image_open watermark_path w = inr wm ->
  scaled_size (size im) f = Some target ->
  exists w' rest,
    add_watermark (PyStr image_path) (PyStr watermark_path) (PyStr output_path)
                  (PyStr position) (PyFloat f) (PyStr file_name) w
    = (inr tt, w',
       Open image_path :: Open watermark_path :: Resize wm (Some target)
       :: rest).
Proof.
  intros Hpos Hf Hoi How Hs.
  apply existsb_eqb_In in Hpos.
  pose proof (resize_scaled_size _ _ _ w Hf Hs) as Hr.
  set (inner := fun image watermark : image =>
    bind (resize (size image) (PyFloat f)) (fun tg =>
    bind (call (Resize watermark tg) (Image_resize watermark tg)) (fun watermark1 =>
    bind (call (Grayscale watermark1) (ImageOps_grayscale watermark1)) (fun gray =>
    bind (call (Invert gray) (ImageOps_invert gray)) (fun watermark_mask =>
    bind (offset image watermark1 (PyStr position)) (fun box =>
    bind (call (Paste image watermark1 box watermark_mask)
               (Image_paste image watermark1 box watermark_mask)) (fun image1 =>
    bind (build_output_path (PyStr file_name) (PyStr output_path)) (fun p =>
    bind (save image1 p) (fun _ =>
    print (saved_msg watermark_path file_name position)))))))))).
  assert (Hin : exists r w1 t1,
             inner im wm w = (r, w1, (Resize wm (Some target) :: t1))).
  { unfold inner. unfold bind at 1. rewrite Hr.
    unfold bind at 1. unfold call at 1. unfold bind at 1, emit, lift.
    destruct (Image_resize wm (Some target)) as [e | wm1].
    - now do 3 eexists.
    - match goal with
      | |- context [bind ?m ?k w] => destruct (bind m k w) as [[r w1] t1]
      end.
      now do 3 eexists. }
  destruct Hin as (r & w1 & t1 & Hin).
  pose proof (with_open_events watermark_path (inner im) w wm _ _ _ How Hin)
    as H2.
  pose proof (with_open_events image_path
                (fun image => with_open watermark_path (inner image))
                w im _ _ _ Hoi H2) as H1.
  assert (Hbody :
            add_watermark_body (PyStr image_path) (PyStr watermark_path)
              (PyStr output_path) (PyStr position) (PyFloat f)
              (PyStr file_name) w
            = with_open image_path
                (fun image => with_open watermark_path (inner image)) w).
  { unfold add_watermark_body. cbn [expect_str check isinstance_float].
    rewrite !bind_ret_l, Hpos. cbn [check]. rewrite bind_ret_l.
    reflexivity. }
  unfold add_watermark, try_except. rewrite Hbody, H1.
  destruct r as [e | []].
  - destruct (report_returns e w1) as [line ->]. now do 2 eexists.
  - now do 2 eexists.
Qed.

End Compositor.

(** ** The program on a concrete file system *)

(** A batch run over [a.png] (unreadable), [b.txt], [c.JPG] and [sub]: the
    failure on [a.png] is printed, [b.txt] and [sub] are passed over, and
    [c.JPG] is watermarked and saved as [watermarked_c.JPG]. *)
Example batch_run_pics :
  add_watermarks_to_directory (L:=Toy.lib) (PyStr "/pics") Toy.wm_path
    Toy.out_dir Toy.center Toy.half Toy.pics
  = (inr tt,
     Toy.Fs (("/out/watermarked_c.JPG", Some (200, 100)) :: Toy.files Toy.pics)
            (Toy.dirs Toy.pics),
     [Listdir "/pics";
      Open "/pics/a.png"; Print "Error: cannot identify image file";
      Open "/pics/c.JPG"; Open "/wm.png";
      Resize (L:=Toy.lib) (50, 50) (Some (100, 50));
      Grayscale (L:=Toy.lib) (100, 50); Invert (L:=Toy.lib) (100, 50);
      Paste (L:=Toy.lib) (200, 100) (100, 50) (Some (50, 25)) (100, 50);
      Save (L:=Toy.lib) (200, 100) (Some "/out/watermarked_c.JPG");
      Print "Saved watermark (/wm.png) to image (c.JPG) at (center) position";
      Close "/wm.png"; Close "/pics/c.JPG"]).
Proof. reflexivity. Qed.

(** Floating point: [3 * (1/3)] rounds to [1.0], so [resize((3, 3), 1/3)]
    is [(1, 1)]. *)
Example resize_three_thirds :
  resize (L:=Toy.lib) (3, 3) (PyFloat float_third) Toy.pics
  = (inr (Some (1, 1)), Toy.pics, []).
Proof. reflexivity. Qed.

Lemma offset_within_bounds_witness :
  fst (50, 50) <= fst (200, 100) /\ snd (50, 50) <= snd (200, 100)
  /\ In "center" valid_positions
  /\ exists x y,
       offset (L:=Toy.lib) (200, 100) (50, 50) (PyStr "center") Toy.pics
       = (inr (Some (x, y)), Toy.pics, [])
       /\ 0 <= x /\ 0 <= y
       /\ x + fst (50, 50) <= fst (200, 100)
       /\ y + snd (50, 50) <= snd (200, 100).
Proof.
  assert (H1 : fst (50, 50) <= fst (200, 100)) by (simpl; lia).
  assert (H2 : snd (50, 50) <= snd (200, 100)) by (simpl; lia).
  assert (H3 : In "center" valid_positions) by (simpl; tauto).
  repeat split; try assumption.
  exact (offset_within_bounds (L:=Toy.lib) (200, 100) (50, 50) "center"
           Toy.pics H1 H2 H3).
Defined.

Lemma not_valid_middle : ~ In "middle" valid_positions.
Proof.
  simpl. intros [H | [H | [H | [H | [H | []]]]]]; discriminate H.
Defined.

Lemma invalid_position_no_compositing_witness :
  ~ In "middle" valid_positions
  /\ exists line,
       add_watermark (L:=Toy.lib) (PyStr "/pics/c.JPG") Toy.wm_path Toy.out_dir
         (PyStr "middle") Toy.half (PyStr "c.JPG") Toy.pics
       = (inr tt, Toy.pics, [Print line])
       /\ existsb is_paste_or_save [Print (L:=Toy.lib) line] = false.
Proof.
  split; [exact not_valid_middle |].
  exact (proj2 (invalid_position_no_compositing (L:=Toy.lib) "middle"
                  not_valid_middle)
           (PyStr "/pics/c.JPG") Toy.wm_path Toy.out_dir Toy.half
           (PyStr "c.JPG") Toy.pics).
Defined.

(** C4 as stated fails when a product overflows: 2 times the largest float
    is infinite, [int] raises, and [resize] prints and returns [None]. *)
Lemma resize_overflow_counterexample :
  0 < 2 /\ float_pos float_max = true
  /\ resize (L:=Toy.lib) (2, 2) (PyFloat float_max) Toy.pics
     = (inr None, Toy.pics,
        [Print "Error: cannot convert float infinity to integer"]).
Proof. split; [reflexivity | split; reflexivity]. Qed.

Lemma resize_truncated_products_witness :
  float_pos float_half = true
  /\ exists a b,
       int_of_float (S754_finite false 7036874417766400 (-46)) = inr a
       /\ int_of_float (S754_finite false 7036874417766400 (-47)) = inr b
       /\ resize (L:=Toy.lib) (200, 100) (PyFloat float_half) Toy.pics
          = (inr (Some (a, b)), Toy.pics, []).
Proof.
  assert (Hf : float_pos float_half = true) by (vm_compute; reflexivity).
  assert (Hx : int_mul_float 200 float_half
               = inr (S754_finite false 7036874417766400 (-46)))
    by (vm_compute; reflexivity).
  assert (Hy : int_mul_float 100 float_half
               = inr (S754_finite false 7036874417766400 (-47)))
    by (vm_compute; reflexivity).
  split; [exact Hf |].
  exact (proj1 (resize_truncated_products (L:=Toy.lib) Toy.pics)
           200 100 float_half _ _ Hf Hx Hy eq_refl eq_refl).
Defined.

Lemma resize_rejects_nonpositive_witness :
  le_zero (PyFloat float_zero) = true
  /\ exists line,
       resize (L:=Toy.lib) (200, 100) (PyFloat float_zero) Toy.pics
       = (inr None, Toy.pics, [Print line])
       /\ (line = "ValueError: scale_factor must be greater than 0."
           \/ line = "TypeError: scale_factor must be a float.").
Proof.
  assert (H : le_zero (PyFloat float_zero) = true) by (vm_compute; reflexivity).
  split; [exact H |].
  exact (resize_rejects_nonpositive (L:=Toy.lib) (200, 100)
           (PyFloat float_zero) Toy.pics H).
Defined.

Lemma non_float_scale_factor_rejected_witness :
  isinstance_float (PyInt 1) = false
  /\ resize (L:=Toy.lib) (200, 100) (PyInt 1) Toy.pics
     = (inr None, Toy.pics, [Print "TypeError: scale_factor must be a float."])
  /\ add_watermark (L:=Toy.lib) (PyStr "/pics/c.JPG") (PyStr "/wm.png")
       (PyStr "/out") (PyStr "center") (PyInt 1) (PyStr "c.JPG") Toy.pics
     = (inr tt, Toy.pics, [Print "TypeError: scale_factor must be a float."]).
Proof.
  split; [reflexivity |].
  pose proof (non_float_scale_factor_rejected (L:=Toy.lib) (PyInt 1) eq_refl)
    as (H1 & _ & H3).
  split; [apply H1 | apply H3].
Defined.

Lemma cat_png_not_empty : "cat.png" <> EmptyString.
Proof. discriminate. Defined.

Lemma out_not_empty : "/out" <> EmptyString.
Proof. discriminate. Defined.

Lemma build_output_path_spec_witness :
  "cat.png" <> EmptyString /\ "/out" <> EmptyString
  /\ build_output_path (L:=Toy.lib) (PyStr "cat.png") (PyStr "/out") Toy.pics
     = (inr (Some (path_join "/out" ("watermarked_" ++ "cat.png"))),
        Toy.pics, []).
Proof.
  split; [exact cat_png_not_empty |]. split; [exact out_not_empty |].
  exact (proj1 (build_output_path_spec (L:=Toy.lib) "cat.png" "/out" Toy.pics)
           cat_png_not_empty out_not_empty).
Defined.

Lemma batch_driver_matching_entries_witness :
  os_listdir (ImageLibrary:=Toy.lib) "/pics" Toy.pics
  = inr ["a.png"; "b.txt"; "c.JPG"; "sub"]
  /\ filter is_image_name ["a.png"; "b.txt"; "c.JPG"; "sub"]
     = ["a.png"; "c.JPG"]
  /\ add_watermarks_to_directory (L:=Toy.lib) (PyStr "/pics") Toy.wm_path
       Toy.out_dir Toy.center Toy.half Toy.pics
     = bind (L:=Toy.lib) (emit (Listdir "/pics"))
         (fun _ =>
            for_each (filter is_image_name ["a.png"; "b.txt"; "c.JPG"; "sub"])
              (compositor_on "/pics" Toy.wm_path Toy.out_dir Toy.center
                             Toy.half))
         Toy.pics.
Proof.
  assert (H : os_listdir (ImageLibrary:=Toy.lib) "/pics" Toy.pics
              = inr ["a.png"; "b.txt"; "c.JPG"; "sub"])
    by (vm_compute; reflexivity).
  split; [exact H |]. split; [vm_compute; reflexivity |].
  exact (proj1 (batch_driver_matching_entries (L:=Toy.lib) Toy.wm_path
                  Toy.out_dir Toy.center Toy.half "/pics"
                  ["a.png"; "b.txt"; "c.JPG"; "sub"] Toy.pics H)).
Defined.

Lemma batch_failure_isolation_witness :
  os_listdir (ImageLibrary:=Toy.lib) "/pics" Toy.pics
  = inr ([] ++ "a.png" :: ["b.txt"; "c.JPG"; "sub"])%list
  /\ exists w1 t1 w2 t2 w3 t3,
       for_each (filter is_image_name [])
         (compositor_on (L:=Toy.lib) "/pics" Toy.wm_path Toy.out_dir Toy.center
                        Toy.half) Toy.pics = (inr tt, w1, t1)
       /\ process_entry (L:=Toy.lib) "/pics" Toy.wm_path Toy.out_dir Toy.center
            Toy.half "a.png" w1 = (inr tt, w2, t2)
       /\ for_each (filter is_image_name ["b.txt"; "c.JPG"; "sub"])
            (compositor_on (L:=Toy.lib) "/pics" Toy.wm_path Toy.out_dir
                           Toy.center Toy.half)
            w2 = (inr tt, w3, t3)
       /\ add_watermarks_to_directory (L:=Toy.lib) (PyStr "/pics") Toy.wm_path
            Toy.out_dir Toy.center Toy.half Toy.pics
          = (inr tt, w3, (Listdir "/pics" :: t1 ++ t2 ++ t3)%list).
Proof.
  assert (H : os_listdir (ImageLibrary:=Toy.lib) "/pics" Toy.pics
              = inr ([] ++ "a.png" :: ["b.txt"; "c.JPG"; "sub"])%list)
    by (vm_compute; reflexivity).
  split; [exact H |].
  exact (batch_failure_isolation (L:=Toy.lib) Toy.wm_path Toy.out_dir
           Toy.center Toy.half "/pics" [] "a.png" ["b.txt"; "c.JPG"; "sub"]
           Toy.pics H).
Defined.

(** C9 as stated fails: a 50x50 watermark on a 200x100 image with scale
    factor 0.5 is resized to (100, 50), half the image, not to (25, 25),
    half the watermark. *)
Lemma watermark_target_counterexample :
  ~ targets_scale_watermark (L:=Toy.lib) float_half
      (snd (add_watermark (L:=Toy.lib) (PyStr "/pics/c.JPG") Toy.wm_path
              Toy.out_dir Toy.center Toy.half (PyStr "c.JPG") Toy.pics)).
Proof.
  intros H.
  specialize (H (50, 50) (Some (100, 50))).
  assert (Hin : In (Resize (L:=Toy.lib) (50, 50) (Some (100, 50)))
                  (snd (add_watermark (L:=Toy.lib) (PyStr "/pics/c.JPG")
                          Toy.wm_path Toy.out_dir Toy.center Toy.half
                          (PyStr "c.JPG") Toy.pics))).
  { right. right. left. reflexivity. }
  specialize (H Hin). vm_compute in H. discriminate H.
Qed.

Lemma center_is_valid : In "center" valid_positions.
Proof. simpl. tauto. Defined.

Lemma watermark_resized_to_scaled_image_witness :
  In "center" valid_positions
  /\ float_pos float_half = true
  /\ Image_open (ImageLibrary:=Toy.lib) "/pics/c.JPG" Toy.pics = inr (200, 100)
  /\ Image_open (ImageLibrary:=Toy.lib) "/wm.png" Toy.pics = inr (50, 50)
  /\ scaled_size (200, 100) float_half = Some (100, 50)
  /\ exists w' rest,
       add_watermark (L:=Toy.lib) (PyStr "/pics/c.JPG") (PyStr "/wm.png")
         (PyStr "/out") (PyStr "center") (PyFloat float_half) (PyStr "c.JPG")
         Toy.pics
       = (inr tt, w',
          Open "/pics/c.JPG" :: Open "/wm.png"
          :: Resize (L:=Toy.lib) (50, 50) (Some (100, 50)) :: rest).
Proof.
  assert (Hf : float_pos float_half = true) by (vm_compute; reflexivity).
  assert (Hi : Image_open (ImageLibrary:=Toy.lib) "/pics/c.JPG" Toy.pics
               = inr (200, 100)) by (vm_compute; reflexivity).
  assert (Hw : Image_open (ImageLibrary:=Toy.lib) "/wm.png" Toy.pics
               = inr (50, 50)) by (vm_compute; reflexivity).
  assert (Hs : scaled_size (200, 100) float_half = Some (100, 50))
    by (vm_compute; reflexivity).
  split; [exact center_is_valid |].
  split; [exact Hf |]. split; [exact Hi |]. split; [exact Hw |].
  split; [exact Hs |].
  exact (watermark_resized_to_scaled_image (L:=Toy.lib) "/pics/c.JPG" "/wm.png"
           "/out" "center" "c.JPG" float_half Toy.pics (200, 100) (50, 50)
           (100, 50) center_is_valid Hf Hi Hw Hs).
Defined.

(** * Further properties of the code *)

(** ** Floats: signs and non-finite values *)

Lemma binary_round_aux_sign (sx : bool) (mx ex : Z) (lx : location) :
  match binary_round_aux prec emax sx mx ex lx with
  | S754_nan => True
  | r => float_sign r = Some sx
  end.
Proof.
  unfold binary_round_aux.
  destruct (shr_fexp prec emax mx ex lx) as [mrs1 e1].
  destruct (shr_fexp prec emax _ e1 loc_Exact) as [mrs2 e2].
  destruct (shr_m mrs2); [reflexivity | | exact I].
  destruct (e2 <=? emax - prec); reflexivity.
Qed.

(** [float(z)] is a zero or a finite float, with the sign of [z]. *)
Lemma float_of_int_sign (z : Z) (x : float) :
  float_of_int z = inr x ->
  is_finite x = true /\ float_sign x = Some (z <? 0).
Proof.
  unfold float_of_int, binary_normalize, binary_round.
  destruct z as [| p | p].
  - intros H. injection H as <-. now split.
  - destruct (shl_align p 0 _) as [mz ez].
    pose proof (binary_round_aux_sign false (Z.pos mz) ez loc_Exact) as Hs.
    destruct (binary_round_aux prec emax false (Z.pos mz) ez loc_Exact);
      intros H; try discriminate H; injection H as <-; now split.
  - destruct (shl_align p 0 _) as [mz ez].
    pose proof (binary_round_aux_sign true (Z.pos mz) ez loc_Exact) as Hs.
    destruct (binary_round_aux prec emax true (Z.pos mz) ez loc_Exact);
      intros H; try discriminate H; injection H as <-; now split.
Qed.

(** A positive float is a finite float or an infinity of sign [+]. *)
Lemma float_pos_sign (f : float) :
  float_pos f = true -> float_sign f = Some false.
Proof.
  destruct f as [s | s | | s m e]; try destruct s; cbn; congruence.
Qed.

(** The product of a finite float by a positive float, when it is not a
    NaN, has the sign of the finite one. *)
Lemma float_mul_pos_sign (x f : float) (s : bool) :
  float_sign x = Some s -> float_pos f = true ->
  match float_mul x f with
  | S754_nan => True
  | r => float_sign r = Some s
  end.
Proof.
  intros Hx Hf. apply float_pos_sign in Hf.
  destruct x as [sx | sx | | sx mx ex]; try discriminate Hx;
    destruct f as [sf | sf | | sf mf ef]; try discriminate Hf;
    cbn in Hx, Hf; injection Hx as ->; injection Hf as ->;
    cbn [float_mul SFmul float_sign xorb]; try exact I;
    try (now rewrite xorb_false_r).
  rewrite xorb_false_r.
  apply binary_round_aux_sign.
Qed.

Lemma float_trunc_nonneg (m : positive) (e : Z) : 0 <= float_trunc false m e.
Proof.
  unfold float_trunc. destruct (0 <=? e) eqn:E.
  - apply Z.leb_le in E. apply Z.mul_nonneg_nonneg; [lia |].
    apply Z.pow_nonneg. lia.
  - apply Z.leb_gt in E. apply Z.div_pos; [lia |].
    apply Z.pow_pos_nonneg; lia.
Qed.

Lemma int_of_float_sign (f : float) (s : bool) (a : Z) :
  float_sign f = Some s -> int_of_float f = inr a ->
  if s then a <= 0 else 0 <= a.
Proof.
  destruct f as [sf | sf | | sf m e]; cbn; try discriminate.
  - intros _ H. injection H as <-. destruct s; lia.
  - intros Hs H. injection Hs as ->. injection H as <-.
    pose proof (float_trunc_nonneg m e) as Hn.
    destruct s; [rewrite float_trunc_neg |]; lia.
Qed.

(** [int(i * f)] for a positive [f] has the sign of [i], or is zero. *)
Lemma trunc_product_sign (i : Z) (f : float) (a : Z) :
  float_pos f = true ->
  trunc_product i f = Some a ->
  (0 <= i -> 0 <= a) /\ (i <= 0 -> a <= 0).
Proof.
  intros Hf. unfold trunc_product, int_mul_float.
  destruct (float_of_int i) as [e | x] eqn:Ex; [discriminate |].
  destruct (float_of_int_sign i x Ex) as [_ Hs].
  pose proof (float_mul_pos_sign x f _ Hs Hf) as Hm.
  destruct (int_of_float (float_mul x f)) as [e | z] eqn:Ez; [discriminate |].
  intros H. injection H as <-.
  destruct (float_mul x f) as [sp | sp | | sp mp ep] eqn:Ep;
    try discriminate Ez.
  - cbn in Ez. injection Ez as <-. lia.
  - pose proof (int_of_float_sign _ _ _ Hm Ez) as Hz.
    destruct (i <? 0) eqn:Ei; [apply Z.ltb_lt in Ei | apply Z.ltb_ge in Ei];
      split; intros; try lia.
    (* i = 0: the float is a zero, so the product is not a finite number *)
    assert (i = 0) by lia. subst i.
    cbn in Ex. injection Ex as <-.
    destruct f as [sf | sf | | sf mf ef]; cbn in Ep; discriminate Ep.
Qed.

(** The product with an infinity or a NaN is not finite. *)
Lemma float_mul_not_finite (x f : float) :
  is_finite x = true -> is_finite f = false ->
  is_finite (float_mul x f) = false.
Proof.
  destruct x as [sx | sx | | sx mx ex]; try discriminate;
    destruct f as [sf | sf | | sf mf ef]; try discriminate; reflexivity.
Qed.

Lemma int_of_float_not_finite (f : float) :
  is_finite f = false -> exists e, int_of_float f = inl e.
Proof.
  destruct f as [s | s | | s m e]; try discriminate; intros _;
    eexists; reflexivity.
Qed.

(** ** Geometry, further *)

Section MoreGeometry.

Context {L : ImageLibrary}.

(** X1. Centering is balanced for any two sizes: the margin left after the
    watermark is split in two parts that differ by at most one, the smaller
    first, also when the watermark is the larger image. *)
Theorem center_offset_balanced (base wm : image) (w : world) :
  exists x y,
    offset base wm (PyStr "center") w = (inr (Some (x, y)), w, [])
    /\ 0 <= (fst (size base) - fst (size wm) - x) - x <= 1
    /\ 0 <= (snd (size base) - snd (size wm) - y) - y <= 1.
Proof.
  do 2 eexists. split; [reflexivity |].
  split.
  - pose proof (Z.div_mod (fst (size base) - fst (size wm)) 2 ltac:(lia)).
    pose proof (Z.mod_pos_bound (fst (size base) - fst (size wm)) 2
                  ltac:(lia)).
    lia.
  - pose proof (Z.div_mod (snd (size base) - snd (size wm)) 2 ltac:(lia)).
    pose proof (Z.mod_pos_bound (snd (size base) - snd (size wm)) 2
                  ltac:(lia)).
    lia.
Qed.

(** X2. [offset] returns a pair exactly for the five position strings; for
    any other value, string or not, it prints the ValueError and returns
    [None]. It never raises. *)
Theorem offset_defined_iff_valid (base wm : image) (position : pyval) (w : world) :
  if is_valid_position position
  then exists xy, offset base wm position w = (inr (Some xy), w, [])
  else offset base wm position w
       = (inr None, w, [Print ("Error: " ++ invalid_position_msg)]).
Proof.
  destruct position as [| b | z | f | p]; try reflexivity.
  cbn [is_valid_position].
  destruct (existsb (String.eqb p) valid_positions) eqn:E.
  - apply existsb_eqb_In in E. simpl in E.
    destruct E as [<- | [<- | [<- | [<- | [<- | []]]]]];
      eexists; reflexivity.
  - assert (Hn : ~ In p valid_positions).
    { intros Hin. apply existsb_eqb_In in Hin. congruence. }
    assert (Eq : forall q, In q valid_positions -> String.eqb p q = false).
    { intros q Hq. now apply (eqb_of_not_In p q valid_positions). }
    unfold offset, try_except, bind, lift, offset_body, eq_str.
    rewrite !Eq by (simpl; tauto). reflexivity.
Qed.

(** X3. Nothing guards against a watermark larger than the base image: for
    a valid position the x offset is negative exactly when the watermark is
    wider than the base and the position is top-right, bottom-right or
    center; the y offset is negative exactly when it is taller and the
    position is bottom-left, bottom-right or center. *)
Theorem offset_negative_iff (base wm : image) (position : string) (w : world) :
  In position valid_positions ->
  exists x y,
    offset base wm (PyStr position) w = (inr (Some (x, y)), w, [])
    /\ (x < 0 <->
        fst (size base) < fst (size wm)
        /\ In position ["top-right"; "bottom-right"; "center"])
    /\ (y < 0 <->
        snd (size base) < snd (size wm)
        /\ In position ["bottom-left"; "bottom-right"; "center"]).
Proof.
  intros Hin.
  assert (Hx : (fst (size base) - fst (size wm)) / 2 < 0
               <-> fst (size base) < fst (size wm)).
  { pose proof (Z.div_mod (fst (size base) - fst (size wm)) 2 ltac:(lia)).
    pose proof (Z.mod_pos_bound (fst (size base) - fst (size wm)) 2
                  ltac:(lia)).
    lia. }
  assert (Hy : (snd (size base) - snd (size wm)) / 2 < 0
               <-> snd (size base) < snd (size wm)).
  { pose proof (Z.div_mod (snd (size base) - snd (size wm)) 2 ltac:(lia)).
    pose proof (Z.mod_pos_bound (snd (size base) - snd (size wm)) 2
                  ltac:(lia)).
    lia. }
  simpl in Hin.
  destruct Hin as [<- | [<- | [<- | [<- | [<- | []]]]]];
    do 2 eexists; (split; [reflexivity |]); cbn [In];
    intuition (first [reflexivity | discriminate | lia]).
Qed.

(** [resize] returns a size only on a float that is not [<= 0] and whose
    products are finite. *)
Lemma resize_some_inv (sz target : Z * Z) (v : pyval) (w w' : world)
  (t : list (event L)) :
  resize sz v w = (inr (Some target), w', t) ->
  exists f,
    v = PyFloat f /\ float_le_zero f = false
    /\ scaled_size sz f = Some target /\ w' = w /\ t = [].
Proof.
  destruct sz as [width height].
  unfold resize, resize_body, try_except, bind, expect_float, check, ret, lift,
    report, print, emit.
  destruct v as [| b | z | f | s]; try discriminate.
  destruct (float_le_zero f) eqn:Ef; cbn [negb]; [discriminate |].
  destruct (int_mul_float width f) as [[k m] | x] eqn:E1; cbn;
    [destruct k; discriminate |].
  destruct (int_of_float x) as [[k m] | a] eqn:E2; cbn;
    [destruct k; discriminate |].
  destruct (int_mul_float height f) as [[k m] | y] eqn:E3; cbn;
    [destruct k; discriminate |].
  destruct (int_of_float y) as [[k m] | b] eqn:E4; cbn;
    [destruct k; discriminate |].
  intros H. injection H as <- <- <-. exists f.
  repeat split; try assumption.
  unfold scaled_size, trunc_product. cbn [fst snd].
  now rewrite E1, E2, E3, E4.
Qed.

Lemma not_le_zero_finite_pos (f : float) :
  float_le_zero f = false -> is_finite f = true -> float_pos f = true.
Proof.
  destruct f as [s | s | | s m e]; try destruct s; cbn; congruence.
Qed.

Lemma scaled_size_finite_scale (sz target : Z * Z) (f : float) :
  scaled_size sz f = Some target -> is_finite f = true.
Proof.
  unfold scaled_size, trunc_product, int_mul_float.
  destruct (float_of_int (fst sz)) as [e | x] eqn:Ex; [discriminate |].
  destruct (is_finite f) eqn:Ef; [reflexivity |].
  destruct (float_of_int_sign _ _ Ex) as [Hx _].
  pose proof (float_mul_not_finite x f Hx Ef) as Hm.
  destruct (int_of_float_not_finite _ Hm) as [e ->]. discriminate.
Qed.

(** X4. An infinite or NaN scale factor never yields a size. A NaN and
    [+inf] pass the test [scale_factor <= 0]; the conversion [int(...)] of
    the product then raises, which is printed, and [None] is returned. *)
Theorem resize_non_finite_scale (sz : Z * Z) (f : float) (w : world) :
  is_finite f = false ->
  exists line, resize sz (PyFloat f) w = (inr None, w, [Print line]).
Proof.
  intros Hf. destruct sz as [width height].
  apply resize_not_finite.
  destruct (scaled_size (width, height) f) as [target |] eqn:E;
    [| reflexivity].
  apply scaled_size_finite_scale in E. congruence.
Qed.

(** X5. A size [resize] returns has the signs of the size it was given: a
    dimension that was not negative is not negative afterwards (it can be
    zero), and one that was not positive is not positive afterwards. *)
Theorem resize_keeps_signs (width height a b : Z) (scale_factor : pyval)
  (w w' : world) (t : list (event L)) :
  resize (width, height) scale_factor w = (inr (Some (a, b)), w', t) ->
  (0 <= width -> 0 <= a) /\ (width <= 0 -> a <= 0)
  /\ (0 <= height -> 0 <= b) /\ (height <= 0 -> b <= 0).
Proof.
  intros H.
  destruct (resize_some_inv _ _ _ _ _ _ H) as (f & -> & Hle & Hs & _ & _).
  pose proof (scaled_size_finite_scale _ _ _ Hs) as Hfin.
  pose proof (not_le_zero_finite_pos f Hle Hfin) as Hpos.
  unfold scaled_size in Hs. cbn [fst snd] in Hs.
  destruct (trunc_product width f) as [a' |] eqn:Ea; [| discriminate Hs].
  destruct (trunc_product height f) as [b' |] eqn:Eb; [| discriminate Hs].
  injection Hs as <- <-.
  destruct (trunc_product_sign _ _ _ Hpos Ea) as [Ha1 Ha2].
  destruct (trunc_product_sign _ _ _ Hpos Eb) as [Hb1 Hb2].
  repeat split; assumption.
Qed.


End MoreGeometry.

(** ** Path Builder, further *)

Lemma append_cancel_l (x a b : string) : x ++ a = x ++ b -> a = b.
Proof.
  induction x as [| c x IH]; cbn [append]; [trivial |].
  intros H. injection H as H. now apply IH.
Qed.

Lemma length_append (a b : string) :
  String.length (a ++ b) = (String.length a + String.length b)%nat.
Proof. induction a as [| c a IH]; cbn; [reflexivity | now rewrite IH]. Qed.

Lemma build_output_path_some_inv {L : ImageLibrary}
  (file_name output_path : pyval) (p : string) (w w' : world)
  (t : list (event L)) :
  build_output_path file_name output_path w = (inr (Some p), w', t) ->
  exists fn op,
    file_name = PyStr fn /\ output_path = PyStr op
    /\ fn <> EmptyString /\ op <> EmptyString
    /\ p = path_join op ("watermarked_" ++ fn) /\ w' = w /\ t = [].
Proof.
  unfold build_output_path, build_output_path_body, try_except, bind,
    expect_str, check, ret.
  destruct file_name as [| b | z | f | fn]; try discriminate.
  destruct output_path as [| b | z | f | op]; try discriminate.
  destruct (String.eqb_spec fn EmptyString) as [Ef | Ef];
    [discriminate |].
  destruct (String.eqb_spec op EmptyString) as [Eo | Eo];
    [discriminate |].
  cbn. intros H. injection H as <- <- <-.
  exists fn, op. now repeat split.
Qed.

Section MorePaths.

Context {L : ImageLibrary}.

(** X7. [build_output_path] returns a path exactly for two non-empty
    strings. A [file_name] that is not a string is reported first, then an
    [output_path] that is not a string; in both cases a TypeError line is
    printed and [None] returned. *)
Theorem build_output_path_returns_iff (file_name output_path : pyval) (w : world) :
  ((exists p, build_output_path file_name output_path w = (inr (Some p), w, []))
   <-> exists fn op,
         file_name = PyStr fn /\ output_path = PyStr op
         /\ fn <> EmptyString /\ op <> EmptyString)
  /\ (is_str file_name = false ->
      build_output_path file_name output_path w
      = (inr None, w, [Print "TypeError: file_name must be a string."]))
  /\ (is_str file_name = true -> is_str output_path = false ->
      build_output_path file_name output_path w
      = (inr None, w, [Print "TypeError: output_path must be a string."])).
Proof.
  split; [| split].
  - split.
    + intros [p H].
      destruct (build_output_path_some_inv _ _ _ _ _ _ H)
        as (fn & op & H1 & H2 & H3 & H4 & _).
      now exists fn, op.
    + intros (fn & op & -> & -> & Hf & Ho).
      eexists.
      unfold build_output_path, build_output_path_body, try_except, bind,
        expect_str, check, ret.
      rewrite (eqb_empty_false _ Hf), (eqb_empty_false _ Ho). reflexivity.
  - destruct file_name; try discriminate; reflexivity.
  - destruct file_name; try discriminate.
    destruct output_path; try discriminate; reflexivity.
Qed.

(** X8. For one output directory, different file names get different output
    paths: two images of a batch never share an output file. *)
Theorem build_output_path_injective
  (file_name1 file_name2 output_path : pyval) (p : string) (w1 w2 : world) :
  build_output_path file_name1 output_path w1 = (inr (Some p), w1, []) ->
  build_output_path file_name2 output_path w2 = (inr (Some p), w2, []) ->
  file_name1 = file_name2.
Proof.
  intros H1 H2.
  destruct (build_output_path_some_inv _ _ _ _ _ _ H1)
    as (fn1 & op1 & -> & -> & _ & Ho & Hp1 & _).
  destruct (build_output_path_some_inv _ _ _ _ _ _ H2)
    as (fn2 & op2 & -> & Eo & _ & _ & Hp2 & _).
  injection Eo as <-.
  rewrite Hp1 in Hp2.
  rewrite !(path_join_watermarked _ _ Ho) in Hp2.
  f_equal.
  destruct (endswith op1 "/").
  - apply append_cancel_l in Hp2. now apply (append_cancel_l "watermarked_").
  - apply append_cancel_l in Hp2.
    now apply (append_cancel_l "/watermarked_").
Qed.

(** X9. When the file name holds no path separator, the path returned is
    the output directory followed by more text, its last component is
    [watermarked_] and the file name, and it is never the path of the input
    file itself, in whatever directory that file lies (also the output
    directory). *)
Theorem output_path_is_not_input
  (file_name output_path p : string) (w w' : world) (t : list (event L)) :
  has_sep file_name = false ->
  build_output_path (PyStr file_name) (PyStr output_path) w
  = (inr (Some p), w', t) ->
  (exists rest, p = output_path ++ rest)
  /\ basename p = "watermarked_" ++ file_name
  /\ (forall directory, p <> path_join directory file_name).
Proof.
  intros Hs H.
  destruct (build_output_path_some_inv _ _ _ _ _ _ H)
    as (fn & op & E1 & E2 & Hf & Ho & -> & _).
  injection E1 as <-. injection E2 as <-.
  assert (Hs' : has_sep ("watermarked_" ++ file_name) = false) by exact Hs.
  assert (Hb : basename (path_join output_path ("watermarked_" ++ file_name))
               = "watermarked_" ++ file_name)
    by now apply basename_path_join.
  split; [| split].
  - rewrite (path_join_watermarked _ _ Ho).
    destruct (endswith output_path "/"); eexists; reflexivity.
  - exact Hb.
  - intros directory E.
    apply (f_equal basename) in E.
    rewrite Hb, (basename_path_join _ _ Hs) in E.
    apply (f_equal String.length) in E.
    rewrite length_append in E. cbn in E. lia.
Qed.

End MorePaths.

(** ** Compositor, further *)

Ltac emits_auto :=
  repeat first
    [ apply emits_ret | apply emits_raise | apply emits_lift | apply emits_read
    | apply emits_check | apply emits_expect_str | apply emits_expect_float
    | apply emits_emit; reflexivity
    | apply emits_save; reflexivity
    | apply emits_report; reflexivity
    | apply emits_try_except; [| intros ?]
    | apply emits_try_finally
    | apply emits_bind; [| intros ?] ].

Section MoreCompositor.

Context {L : ImageLibrary}.

(** With valid arguments the body of [add_watermark] is its [with]
    statement. *)
Lemma add_watermark_body_valid
  (image_path watermark_path output_path position file_name : string)
  (f : float) (w : world) :
  existsb (String.eqb position) valid_positions = true ->
  add_watermark_body (PyStr image_path) (PyStr watermark_path)
    (PyStr output_path) (PyStr position) (PyFloat f) (PyStr file_name) w
  = with_open image_path
      (fun image =>
         with_open watermark_path
           (with_block watermark_path output_path position file_name
                       (PyFloat f) image)) w.
Proof.
  intros Hpos. unfold add_watermark_body.
  cbn [expect_str check isinstance_float].
  rewrite !bind_ret_l, Hpos. cbn [check]. rewrite bind_ret_l.
  reflexivity.
Qed.

Lemma with_open_fail {A} (path : string) (body : image -> M L A)
  (w : world) (e : exn) :
  Image_open path w = inl e ->
  with_open path body w = (inl e, w, [Open path]).
Proof.
  intros Ho. unfold with_open, bind, emit, read. now rewrite Ho.
Qed.

(** What the [except] clauses make of the outcome of the body. *)
Lemma try_except_report (m : M L unit) (w w1 : world) (r : result unit)
  (t1 : list (event L)) :
  m w = (r, w1, t1) ->
  exists tail,
    try_except m report w = (inr tt, w1, (t1 ++ tail)%list)
    /\ match r with
       | inl _ => exists line, tail = [Print line]
       | inr _ => tail = []
       end.
Proof.
  intros Hm. unfold try_except. rewrite Hm.
  destruct r as [e | []].
  - destruct (report_returns e w1) as [line ->].
    exists [Print line]. split; [reflexivity | now exists line].
  - exists []. split; [now rewrite app_nil_r | reflexivity].
Qed.

(** Invalid arguments: one printed line, nothing else. *)
Lemma add_watermark_invalid
  (image_path watermark_path output_path position scale_factor file_name : pyval)
  (w : world) :
  valid_args image_path watermark_path output_path position scale_factor
             file_name = false ->
  exists line,
    add_watermark image_path watermark_path output_path position scale_factor
                  file_name w = (inr tt, w, [Print line]).
Proof.
  unfold valid_args, add_watermark, add_watermark_body, try_except.
  destruct image_path; try (intros _; eexists; reflexivity).
  destruct watermark_path; try (intros _; eexists; reflexivity).
  destruct output_path; try (intros _; eexists; reflexivity).
  destruct position as [| | | | p]; try (intros _; eexists; reflexivity).
  destruct scale_factor; try (intros _; eexists; reflexivity).
  destruct file_name; try (intros _; eexists; reflexivity).
  cbn [is_str isinstance_float andb is_valid_position].
  intros Hp.
  cbn [expect_str bind ret check isinstance_float app].
  rewrite Hp. eexists. reflexivity.
Qed.

(** Valid arguments: the first thing done is to open the image. *)
Lemma add_watermark_valid_opens
  (image_path watermark_path output_path position scale_factor file_name : pyval)
  (w : world) :
  valid_args image_path watermark_path output_path position scale_factor
             file_name = true ->
  exists path rest w',
    image_path = PyStr path
    /\ add_watermark image_path watermark_path output_path position
         scale_factor file_name w = (inr tt, w', Open path :: rest).
Proof.
  unfold valid_args.
  destruct image_path as [| | | | ip]; try discriminate.
  destruct watermark_path as [| | | | wp]; try discriminate.
  destruct output_path as [| | | | op]; try discriminate.
  destruct position as [| | | | pos]; try discriminate.
  destruct scale_factor as [| | | f |]; try discriminate.
  destruct file_name as [| | | | fn]; try discriminate.
  cbn [is_str isinstance_float andb is_valid_position]. intros Hp.
  assert (Hw : exists r w1 t1,
             add_watermark_body (PyStr ip) (PyStr wp) (PyStr op) (PyStr pos)
               (PyFloat f) (PyStr fn) w = (r, w1, Open ip :: t1)).
  { rewrite (add_watermark_body_valid _ _ _ _ _ _ _ Hp).
    destruct (Image_open ip w) as [e | im] eqn:Ho.
    - rewrite (with_open_fail _ _ _ _ Ho). now do 3 eexists.
    - destruct (with_open wp
                  (with_block wp op pos fn (PyFloat f) im) w)
        as [[r w1] t1] eqn:Hb.
      rewrite (with_open_events ip _ w im _ _ _ Ho Hb). now do 3 eexists. }
  destruct Hw as (r & w1 & t1 & Hw).
  destruct (try_except_report _ _ _ _ _ Hw) as (tail & Ht & _).
  exists ip. do 2 eexists. split; [reflexivity |].
  unfold add_watermark. rewrite Ht. reflexivity.
Qed.

(** X10. [add_watermark] validates before it touches anything: with five
    string arguments, a float scale factor and one of the five positions
    its first action is to open the image; in every other case it prints
    exactly one line, makes no library call and leaves the file system as it
    was. (The sign of the scale factor is not part of this validation.) *)
Theorem add_watermark_validation
  (image_path watermark_path output_path position scale_factor file_name : pyval)
  (w : world) :
  if valid_args image_path watermark_path output_path position scale_factor
                file_name
  then exists path rest w',
         image_path = PyStr path
         /\ add_watermark image_path watermark_path output_path position
              scale_factor file_name w = (inr tt, w', Open path :: rest)
  else exists line,
         add_watermark image_path watermark_path output_path position
           scale_factor file_name w = (inr tt, w, [Print line]).
Proof.
  destruct (valid_args _ _ _ _ _ _) eqn:E.
  - now apply add_watermark_valid_opens.
  - now apply add_watermark_invalid.
Qed.

(** The [with] block opens and closes nothing itself. *)
Lemma with_block_no_open_close
  (watermark_path output_path position file_name : string)
  (scale_factor : pyval) (im wm : image) :
  emits_only not_open_or_close
    (with_block watermark_path output_path position file_name scale_factor
                im wm).
Proof.
  unfold with_block, call, offset, resize, build_output_path, print.
  emits_auto.
  destruct (size im) as [width height]. emits_auto.
Qed.

(** X11. Whatever fails in between, an image that was opened is closed, the
    watermark before the image: with valid arguments and an image that
    opens, either the watermark opens too and the events are the two opens,
    the events of the block (no open, no close), the two closes and at most
    one error line; or it does not, and the image is closed before the
    error is printed. *)
Theorem opened_images_are_closed
  (image_path watermark_path output_path position file_name : string)
  (f : float) (w : world) (im : image) :
  In position valid_positions ->
  Image_open image_path w = inr im ->
  match Image_open watermark_path w with
  | inr wm =>
      exists w' mid tail,
        add_watermark (PyStr image_path) (PyStr watermark_path)
          (PyStr output_path) (PyStr position) (PyFloat f) (PyStr file_name) w
        = (inr tt, w',
           (Open image_path :: Open watermark_path :: mid
            ++ Close watermark_path :: Close image_path :: tail)%list)
        /\ forallb not_open_or_close mid = true
        /\ (tail = [] \/ exists line, tail = [Print line])
  | inl e =>
      exists line,
        add_watermark (PyStr image_path) (PyStr watermark_path)
          (PyStr output_path) (PyStr position) (PyFloat f) (PyStr file_name) w
        = (inr tt, w,
           [Open image_path; Open watermark_path; Close image_path; Print line])
  end.
Proof.
  intros Hpos Hoi. apply existsb_eqb_In in Hpos.
  pose proof (add_watermark_body_valid image_path watermark_path output_path
                position file_name f w Hpos) as Hbody.
  destruct (Image_open watermark_path w) as [e | wm] eqn:How.
  - pose proof (with_open_fail watermark_path
                  (with_block watermark_path output_path position file_name
                              (PyFloat f) im) w e How) as H2.
    pose proof (with_open_events image_path
                  (fun image =>
                     with_open watermark_path
                       (with_block watermark_path output_path position
                                   file_name (PyFloat f) image))
                  w im _ _ _ Hoi H2) as H1.
    rewrite <- Hbody in H1.
    destruct (try_except_report _ _ _ _ _ H1) as (tail & Ht & [line ->]).
    exists line. unfold add_watermark. rewrite Ht. reflexivity.
  - pose proof (with_block_no_open_close watermark_path output_path position
                  file_name (PyFloat f) im wm w) as Hmid.
    destruct (with_block watermark_path output_path position file_name
                (PyFloat f) im wm w) as [[r w1] mid] eqn:Hb.
    cbn [snd] in Hmid.
    pose proof (with_open_events watermark_path _ w wm _ _ _ How Hb) as H2.
    pose proof (with_open_events image_path
                  (fun image =>
                     with_open watermark_path
                       (with_block watermark_path output_path position
                                   file_name (PyFloat f) image))
                  w im _ _ _ Hoi H2) as H1.
    rewrite <- Hbody in H1.
    destruct (try_except_report _ _ _ _ _ H1) as (tail & Ht & Htail).
    exists w1, mid, tail. split; [| split].
    + unfold add_watermark. rewrite Ht.
      cbn [app]. rewrite <- !app_assoc. reflexivity.
    + exact Hmid.
    + destruct r; [right | left]; assumption.
Qed.

End MoreCompositor.

Section CompositorRuns.

Context {L : ImageLibrary}.

(** [offset] computes a pair only for a valid position. *)
Lemma offset_body_some_valid (im wm : image) (position : string) (box : Z * Z) :
  offset_body im wm (PyStr position) = inr box ->
  existsb (String.eqb position) valid_positions = true.
Proof.
  intros H.
  destruct (existsb (String.eqb position) valid_positions) eqn:E;
    [reflexivity |].
  assert (Hn : ~ In position valid_positions).
  { intros Hin. apply existsb_eqb_In in Hin. congruence. }
  assert (Eq : forall q, In q valid_positions -> String.eqb position q = false).
  { intros q Hq. now apply (eqb_of_not_In position q valid_positions). }
  unfold offset_body, eq_str in H.
  rewrite !Eq in H by (simpl; tauto). discriminate H.
Qed.

Lemma call_returns {A} (ev : event L) (r : result A) (w : world) :
  call ev r w = (r, w, [ev]).
Proof. unfold call, bind, emit, lift. destruct r; reflexivity. Qed.

Lemma bind_raises {A B} (m : M L A) (k : A -> M L B) w e w1 t1 :
  m w = (inl e, w1, t1) -> bind m k w = (inl e, w1, t1).
Proof. intros Hm. unfold bind. now rewrite Hm. Qed.

(** The run in which every step succeeds. *)
Lemma add_watermark_all_succeed
  (image_path watermark_path output_path position file_name : string)
  (f : float) (w w1 : world) (im wm wm1 gray mask im1 : image)
  (target box : Z * Z) :
  file_name <> EmptyString ->
  output_path <> EmptyString ->
  float_pos f = true ->
  Image_open image_path w = inr im ->
  Image_open watermark_path w = inr wm ->
  scaled_size (size im) f = Some target ->
  Image_resize wm (Some target) = inr wm1 ->
  ImageOps_grayscale wm1 = inr gray ->
  ImageOps_invert gray = inr mask ->
  offset_body im wm1 (PyStr position) = inr box ->
  Image_paste im wm1 (Some box) mask = inr im1 ->
  Image_save im1 (Some (path_join output_path ("watermarked_" ++ file_name))) w
  = (None, w1) ->
  add_watermark (PyStr image_path) (PyStr watermark_path)
    (PyStr output_path) (PyStr position) (PyFloat f) (PyStr file_name) w
  = (inr tt, w1,
     [Open image_path; Open watermark_path;
      Resize wm (Some target); Grayscale wm1; Invert gray;
      Paste im wm1 (Some box) mask;
      Save im1 (Some (path_join output_path ("watermarked_" ++ file_name)));
      Print (saved_msg watermark_path file_name position);
      Close watermark_path; Close image_path]).
Proof.
  intros Hfn Hop Hf Hoi How Hs Hres Hg Hi Hoff Hpaste Hsave.
  pose proof (offset_body_some_valid _ _ _ _ Hoff) as Hpos.
  assert (Hbox : offset im wm1 (PyStr position) w = (inr (Some box), w, [])).
  { unfold offset, try_except, bind, lift. rewrite Hoff. reflexivity. }
  assert (Hbop : build_output_path (PyStr file_name) (PyStr output_path) w
                 = (inr (Some (path_join output_path
                                  ("watermarked_" ++ file_name))), w, [])).
  { unfold build_output_path, build_output_path_body, try_except, bind,
      expect_str, check, ret.
    rewrite (eqb_empty_false _ Hfn), (eqb_empty_false _ Hop). reflexivity. }
  assert (Hblock : exists t,
             with_block watermark_path output_path position file_name
               (PyFloat f) im wm w = (inr tt, w1, t)
             /\ t = [Resize wm (Some target); Grayscale wm1; Invert gray;
                     Paste im wm1 (Some box) mask;
                     Save im1 (Some (path_join output_path
                                       ("watermarked_" ++ file_name)));
                     Print (saved_msg watermark_path file_name position)]).
  { eexists. split.
    - unfold with_block.
      eapply bind_returns; [apply (resize_scaled_size _ _ _ w Hf Hs) |].
      eapply bind_returns; [rewrite call_returns, Hres; reflexivity |].
      eapply bind_returns; [rewrite call_returns, Hg; reflexivity |].
      eapply bind_returns; [rewrite call_returns, Hi; reflexivity |].
      eapply bind_returns; [exact Hbox |].
      eapply bind_returns; [rewrite call_returns, Hpaste; reflexivity |].
      eapply bind_returns; [exact Hbop |].
      eapply bind_returns;
        [unfold save; rewrite Hsave; reflexivity | reflexivity].
    - reflexivity. }
  destruct Hblock as (t & Hb & ->).
  pose proof (with_open_events watermark_path _ w wm _ _ _ How Hb) as H2.
  pose proof (with_open_events image_path
                (fun image =>
                   with_open watermark_path
                     (with_block watermark_path output_path position
                                 file_name (PyFloat f) image))
                w im _ _ _ Hoi H2) as H1.
  rewrite <- (add_watermark_body_valid _ _ _ _ _ _ _ Hpos) in H1.
  unfold add_watermark, try_except. rewrite H1. reflexivity.
Qed.

(** X12. The run in which everything succeeds: non-empty file name and
    output directory, a positive float scale factor with finite products, a
    position [offset] has a pair for, and every library call returning. The watermark is
    resized to the scaled size of the image, the mask is the inverted
    grayscale of the resized watermark, the paste is at the offset computed
    for the resized watermark, and the pasted image is saved under the
    output directory as [watermarked_] and the file name; then the success
    line is printed and both images are closed. *)
Theorem add_watermark_success
  (image_path watermark_path output_path position file_name : string)
  (f : float) (w w1 : world) (im wm wm1 gray mask im1 : image)
  (target box : Z * Z) :
  file_name <> EmptyString ->
  output_path <> EmptyString ->
  float_pos f = true ->
  Image_open image_path w = inr im ->
  Image_open watermark_path w = inr wm ->
  scaled_size (size im) f = Some target ->
  Image_resize wm (Some target) = inr wm1 ->
  ImageOps_grayscale wm1 = inr gray ->
  ImageOps_invert gray = inr mask ->
  offset_body im wm1 (PyStr position) = inr box ->
  Image_paste im wm1 (Some box) mask = inr im1 ->
  Image_save im1 (Some (path_join output_path ("watermarked_" ++ file_name))) w
  = (None, w1) ->
  add_watermark (PyStr image_path) (PyStr watermark_path)
    (PyStr output_path) (PyStr position) (PyFloat f) (PyStr file_name) w
  = (inr tt, w1,
     [Open image_path; Open watermark_path;
      Resize wm (Some target); Grayscale wm1; Invert gray;
      Paste im wm1 (Some box) mask;
      Save im1 (Some (path_join output_path ("watermarked_" ++ file_name)));
      Print (saved_msg watermark_path file_name position);
      Close watermark_path; Close image_path]).
Proof. apply add_watermark_all_succeed. Qed.

(** X13. A float scale factor that is [<= 0] is found only after both
    images are opened: [resize] prints its ValueError and returns [None],
    and when the library refuses [None] as a size, its error is printed as
    well, after both images are closed. Nothing is pasted or saved and the
    file system is as it was. *)
Theorem nonpositive_scale_after_open
  (image_path watermark_path output_path position file_name : string)
  (f : float) (w : world) (im wm : image) (e : exn) :
  In position valid_positions ->
  float_le_zero f = true ->
  Image_open image_path w = inr im ->
  Image_open watermark_path w = inr wm ->
  Image_resize wm None = inl e ->
  exists line,
    add_watermark (PyStr image_path) (PyStr watermark_path)
      (PyStr output_path) (PyStr position) (PyFloat f) (PyStr file_name) w
    = (inr tt, w,
       [Open image_path; Open watermark_path;
        Print "ValueError: scale_factor must be greater than 0.";
        Resize wm None;
        Close watermark_path; Close image_path; Print line]).
Proof.
  intros Hpos Hf Hoi How Hres.
  apply existsb_eqb_In in Hpos.
  assert (Hr : resize (size im) (PyFloat f) w
               = (inr None, w,
                  [Print "ValueError: scale_factor must be greater than 0."])).
  { destruct (size im) as [width height].
    unfold resize, resize_body, try_except, bind, expect_float, check, ret.
    rewrite Hf. reflexivity. }
  assert (Hb : with_block watermark_path output_path position file_name
                 (PyFloat f) im wm w
               = (inl e, w,
                  [Print "ValueError: scale_factor must be greater than 0.";
                   Resize wm None])).
  { unfold with_block. unfold bind at 1. rewrite Hr.
    erewrite bind_raises; [reflexivity |].
    rewrite call_returns, Hres. reflexivity. }
  pose proof (with_open_events watermark_path _ w wm _ _ _ How Hb) as H2.
  pose proof (with_open_events image_path
                (fun image =>
                   with_open watermark_path
                     (with_block watermark_path output_path position
                                 file_name (PyFloat f) image))
                w im _ _ _ Hoi H2) as H1.
  rewrite <- (add_watermark_body_valid _ _ _ _ _ _ _ Hpos) in H1.
  destruct (try_except_report _ _ _ _ _ H1) as (tail & Ht & [line ->]).
  exists line. unfold add_watermark. rewrite Ht. reflexivity.
Qed.

End CompositorRuns.

(** ** Batch Driver, further *)

Section MoreBatch.

Context {L : ImageLibrary}.

(** X14. No exception escapes: [offset] and [build_output_path] always
    return (a value or [None]) and leave the file system alone;
    [add_watermark] and [add_watermarks_to_directory] always return, for
    any arguments, any file system and any behaviour of the library. *)
Theorem no_exception_escapes :
  (forall base wm position w,
      exists r t, offset base wm position w = (inr r, w, t))
  /\ (forall file_name output_path w,
         exists r t, build_output_path file_name output_path w = (inr r, w, t))
  /\ (forall image_path watermark_path output_path position scale_factor
             file_name w,
         exists w' t,
           add_watermark image_path watermark_path output_path position
                         scale_factor file_name w = (inr tt, w', t))
  /\ (forall directory watermark_path output_path position scale_factor w,
         exists w' t,
           add_watermarks_to_directory directory watermark_path output_path
                                       position scale_factor w
           = (inr tt, w', t)).
Proof.
  split; [| split; [| split]].
  - intros base wm position w.
    unfold offset, try_except, bind, lift.
    destruct (offset_body base wm position); do 2 eexists; reflexivity.
  - intros file_name output_path w.
    unfold build_output_path, build_output_path_body, try_except, bind,
      expect_str, check, ret.
    destruct file_name as [| | | | fn]; try (do 2 eexists; reflexivity).
    destruct output_path as [| | | | op]; try (do 2 eexists; reflexivity).
    destruct (String.eqb fn EmptyString); [do 2 eexists; reflexivity |].
    destruct (String.eqb op EmptyString); do 2 eexists; reflexivity.
  - intros. apply add_watermark_returns.
  - intros directory watermark_path output_path position scale_factor w.
    destruct directory as [| | | | dir]; try (do 2 eexists; reflexivity).
    destruct (os_listdir dir w) as [e | entries] eqn:El.
    + destruct (report_directory_returns e w) as [line Hl].
      unfold add_watermarks_to_directory, try_except, bind, expect_str, ret,
        emit, read.
      rewrite El, Hl. do 2 eexists. reflexivity.
    + rewrite (driver_unfold _ _ _ _ dir entries w El).
      destruct (loop_returns watermark_path output_path position scale_factor
                  dir entries w) as (w1 & t1 & H1).
      do 2 eexists.
      eapply (bind_returns _ _ w tt w [Listdir dir]); [reflexivity | exact H1].
Qed.

(** X15. The ways a batch run does nothing: a directory argument that is
    not a string prints a TypeError before the directory is listed; a
    listing that fails (a missing directory, say) prints its error after
    the one call to [os.listdir]; and a listing without any image name
    ends after that call in silence. The file system is unchanged in all
    three cases. *)
Theorem batch_without_images
  (directory watermark_path output_path position scale_factor : pyval)
  (w : world) :
  (is_str directory = false ->
   add_watermarks_to_directory directory watermark_path output_path position
                               scale_factor w
   = (inr tt, w, [Print "TypeError: directory must be a string."]))
  /\ (forall dir e,
         directory = PyStr dir -> os_listdir dir w = inl e ->
         exists line,
           add_watermarks_to_directory directory watermark_path output_path
                                       position scale_factor w
           = (inr tt, w, [Listdir dir; Print line]))
  /\ (forall dir entries,
         directory = PyStr dir -> os_listdir dir w = inr entries ->
         filter is_image_name entries = [] ->
         add_watermarks_to_directory directory watermark_path output_path
                                     position scale_factor w
         = (inr tt, w, [Listdir dir])).
Proof.
  split; [| split].
  - destruct directory; try discriminate; reflexivity.
  - intros dir e -> El.
    destruct (report_directory_returns e w) as [line Hl].
    exists line.
    unfold add_watermarks_to_directory, try_except, bind, expect_str, ret,
      emit, read.
    rewrite El, Hl. reflexivity.
  - intros dir entries -> El Hf.
    rewrite (driver_unfold _ _ _ _ dir entries w El).
    unfold bind at 1. cbn [emit].
    rewrite for_each_matching, Hf. reflexivity.
Qed.

(** With an invalid configuration every call of the Compositor prints the
    same line. *)
Lemma invalid_config_line
  (watermark_path output_path position scale_factor : pyval) :
  valid_config watermark_path output_path position scale_factor = false ->
  exists line,
    forall image_path file_name w,
      add_watermark (PyStr image_path) watermark_path output_path position
                    scale_factor (PyStr file_name) w
      = (inr tt, w, [Print line]).
Proof.
  unfold valid_config, add_watermark, add_watermark_body, try_except.
  destruct watermark_path; try (intros _; eexists; intros; reflexivity).
  destruct output_path; try (intros _; eexists; intros; reflexivity).
  destruct position as [| | | | p]; try (intros _; eexists; intros; reflexivity).
  destruct scale_factor; try (intros _; eexists; intros; reflexivity).
  cbn [is_str isinstance_float andb is_valid_position]. intros Hp.
  eexists. intros image_path file_name w.
  cbn [expect_str bind ret check isinstance_float app].
  rewrite Hp. reflexivity.
Qed.

Lemma for_each_same_line {A} (l : list A) (body : A -> M L unit)
  (line : string) (w : world) :
  (forall x w, body x w = (inr tt, w, [Print line])) ->
  for_each l body w = (inr tt, w, repeat (Print line) (List.length l)).
Proof.
  intros Hb. induction l as [| x l IH]; [reflexivity |].
  cbn [for_each List.length repeat].
  now rewrite (bind_returns _ _ w tt w [Print line] _ _ _ (Hb x w) IH).
Qed.

(** X17. A batch run with an invalid configuration (a watermark path,
    output path or position that is not a string, a scale factor that is
    not a float, or an unknown position) still walks the whole listing: it
    prints the same error line once per matching entry, opens and saves
    nothing, and leaves the file system as it was. *)
Theorem batch_invalid_config
  (directory : string) (entries : list string)
  (watermark_path output_path position scale_factor : pyval) (w : world) :
  valid_config watermark_path output_path position scale_factor = false ->
  os_listdir directory w = inr entries ->
  exists line,
    add_watermarks_to_directory (PyStr directory) watermark_path output_path
                                position scale_factor w
    = (inr tt, w,
       Listdir directory
       :: repeat (Print line) (List.length (filter is_image_name entries))).
Proof.
  intros Hc El.
  destruct (invalid_config_line _ _ _ _ Hc) as [line Hline].
  exists line.
  rewrite (driver_unfold _ _ _ _ directory entries w El).
  eapply (bind_returns _ _ w tt w [Listdir directory]); [reflexivity |].
  rewrite for_each_matching.
  apply for_each_same_line. intros name w0. apply Hline.
Qed.

End MoreBatch.

(** ** Where a batch run writes *)

Section Writes.

Context {L : ImageLibrary}.

Lemma emits_weaken {A} (P Q : event L -> bool) (m : M L A) :
  (forall ev, P ev = true -> Q ev = true) ->
  emits_only P m -> emits_only Q m.
Proof.
  intros Hpq Hm w. specialize (Hm w).
  rewrite forallb_forall in *. intros ev Hin. apply Hpq, Hm, Hin.
Qed.

Lemma emits_bind_returns {A B} (P : event L -> bool) (Q : A -> Prop)
  (m : M L A) (k : A -> M L B) :
  emits_only P m -> returns_only Q m ->
  (forall a, Q a -> emits_only P (k a)) ->
  emits_only P (bind m k).
Proof.
  intros Hm Hq Hk w. unfold bind. specialize (Hm w).
  destruct (m w) as [[[e | a] w1] t1] eqn:Em; [exact Hm |].
  specialize (Hk a (Hq _ _ _ _ Em) w1). destruct (k a w1) as [[r w2] t2].
  cbn in *. rewrite forallb_app, Hm, Hk. reflexivity.
Qed.

Lemma emits_for_each_in {A} (P : event L -> bool) (l : list A)
  (body : A -> M L unit) :
  (forall x, In x l -> emits_only P (body x)) ->
  emits_only P (for_each l body).
Proof.
  induction l as [| x l IH]; intros Hb; cbn [for_each].
  - apply emits_ret.
  - apply emits_bind.
    + apply Hb. now left.
    + intros _. apply IH. intros y Hy. apply Hb. now right.
Qed.

(** The three helpers only print. *)
Lemma resize_only_prints (P : event L -> bool) (sz : Z * Z) (v : pyval) :
  (forall line, P (Print line) = true) -> emits_only P (resize sz v).
Proof.
  intros Hp. unfold resize, resize_body. destruct sz as [width height].
  repeat first
    [ apply emits_ret | apply emits_lift | apply emits_check
    | apply emits_expect_float | apply emits_report; exact Hp
    | apply emits_try_except; [| intros ?]
    | apply emits_bind; [| intros ?] ].
Qed.

Lemma offset_only_prints (P : event L -> bool) (im wm : image) (v : pyval) :
  (forall line, P (Print line) = true) -> emits_only P (offset im wm v).
Proof.
  intros Hp. unfold offset, print.
  repeat first
    [ apply emits_ret | apply emits_lift | apply emits_emit; apply Hp
    | apply emits_try_except; [| intros ?]
    | apply emits_bind; [| intros ?] ].
Qed.

Lemma build_output_path_only_prints (P : event L -> bool) (a b : pyval) :
  (forall line, P (Print line) = true) ->
  emits_only P (build_output_path a b).
Proof.
  intros Hp. unfold build_output_path, build_output_path_body.
  repeat first
    [ apply emits_ret | apply emits_check | apply emits_expect_str
    | apply emits_report; exact Hp
    | apply emits_try_except; [| intros ?]
    | apply emits_bind; [| intros ?] ].
Qed.

Lemma build_output_path_returns_path (file_name output_path : string) :
  file_name <> EmptyString -> output_path <> EmptyString ->
  returns_only
    (eq (Some (path_join output_path ("watermarked_" ++ file_name))))
    (build_output_path (L:=L) (PyStr file_name) (PyStr output_path)).
Proof.
  intros Hf Ho w a w' t.
  unfold build_output_path, build_output_path_body, try_except, bind,
    expect_str, check, ret.
  rewrite (eqb_empty_false _ Hf), (eqb_empty_false _ Ho). cbn.
  intros H. now injection H as <- _ _.
Qed.

Lemma saves_within_one (p : string) (allowed : list string) (ev : event L) :
  In p allowed -> saves_within [p] ev = true -> saves_within allowed ev = true.
Proof.
  intros Hin. destruct ev as [| | | | | | | | im [q |]]; cbn; trivial.
  rewrite orb_false_r. intros E. apply String.eqb_eq in E. subst q.
  now apply existsb_eqb_In.
Qed.

(** The [with] block saves, if at all, to the path derived from the file
    name. *)
Lemma with_block_saves_within
  (watermark_path output_path position file_name : string)
  (scale_factor : pyval) (im wm : image) :
  file_name <> EmptyString -> output_path <> EmptyString ->
  emits_only
    (saves_within [path_join output_path ("watermarked_" ++ file_name)])
    (with_block watermark_path output_path position file_name scale_factor
                im wm).
Proof.
  intros Hf Ho. unfold with_block, call, print.
  apply emits_bind; [apply resize_only_prints; reflexivity | intros target].
  do 3 (apply emits_bind;
        [apply emits_bind;
         [apply emits_emit; reflexivity | intros _; apply emits_lift]
        | intros ?]).
  apply emits_bind; [apply offset_only_prints; reflexivity | intros box].
  apply emits_bind;
    [apply emits_bind;
     [apply emits_emit; reflexivity | intros _; apply emits_lift]
    | intros im1].
  eapply emits_bind_returns.
  - apply build_output_path_only_prints. reflexivity.
  - now apply build_output_path_returns_path.
  - intros p <-.
    apply emits_bind; [| intros _; apply emits_emit; reflexivity].
    apply emits_save. cbn. now rewrite String.eqb_refl.
Qed.

(** A call of the Compositor saves, if at all, to the path derived from its
    file name. *)
Lemma add_watermark_saves_within
  (image_path watermark_path position scale_factor : pyval)
  (output_path file_name : string) :
  file_name <> EmptyString -> output_path <> EmptyString ->
  emits_only
    (saves_within [path_join output_path ("watermarked_" ++ file_name)])
    (add_watermark image_path watermark_path (PyStr output_path) position
                   scale_factor (PyStr file_name)).
Proof.
  intros Hf Ho w.
  destruct (valid_args image_path watermark_path (PyStr output_path) position
              scale_factor (PyStr file_name)) eqn:Ev.
  - unfold valid_args in Ev.
    destruct image_path as [| | | | ip]; try discriminate.
    destruct watermark_path as [| | | | wp]; try discriminate.
    destruct position as [| | | | pos]; try discriminate.
    destruct scale_factor as [| | | f |]; try discriminate.
    cbn [is_str isinstance_float andb is_valid_position] in Ev.
    assert (Hwith :
              emits_only
                (saves_within
                   [path_join output_path ("watermarked_" ++ file_name)])
                (try_except
                   (with_open ip
                      (fun image =>
                         with_open wp
                           (with_block wp output_path pos file_name
                                       (PyFloat f) image)))
                   report)).
    { unfold with_open.
      apply emits_try_except; [| intros e; apply emits_report; reflexivity].
      apply emits_bind; [apply emits_emit; reflexivity | intros _].
      apply emits_bind; [apply emits_read | intros im].
      apply emits_try_finally; [| apply emits_emit; reflexivity].
      apply emits_bind; [apply emits_emit; reflexivity | intros _].
      apply emits_bind; [apply emits_read | intros wm].
      apply emits_try_finally; [| apply emits_emit; reflexivity].
      now apply with_block_saves_within. }
    specialize (Hwith w). unfold add_watermark, try_except in *.
    rewrite (add_watermark_body_valid _ _ _ _ _ _ _ Ev). exact Hwith.
  - destruct (add_watermark_invalid _ _ _ _ _ _ w Ev) as [line ->].
    reflexivity.
Qed.

(** X16. A batch run writes nowhere else: when the output directory is a
    non-empty string and the entries of the listing are plain names (no
    path separator, as [os.listdir] returns them), every [save] of the run
    goes to the output directory joined with [watermarked_] and the name of
    a matching entry of the listing. *)
Theorem batch_saves_only_watermarked_names
  (directory output_path : string) (entries : list string)
  (watermark_path position scale_factor : pyval) (w : world) :
  os_listdir directory w = inr entries ->
  Forall (fun name => has_sep name = false) entries ->
  output_path <> EmptyString ->
  forallb
    (saves_within
       (map (fun name => path_join output_path ("watermarked_" ++ name))
            (filter is_image_name entries)))
    (snd (add_watermarks_to_directory (PyStr directory) watermark_path
            (PyStr output_path) position scale_factor w))
  = true.
Proof.
  intros El Hsep Ho.
  rewrite (driver_unfold _ _ _ _ directory entries w El).
  assert (Hem : emits_only
                  (saves_within
                     (map (fun name =>
                             path_join output_path ("watermarked_" ++ name))
                          (filter is_image_name entries)))
                  (bind (emit (Listdir directory))
                     (fun _ =>
                        for_each entries
                          (process_entry directory watermark_path
                             (PyStr output_path) position scale_factor)))).
  { apply emits_bind; [apply emits_emit; reflexivity | intros _].
    apply emits_for_each_in. intros name Hin.
    rewrite process_entry_eq.
    destruct (is_image_name name) eqn:Ei; [| apply emits_ret].
    unfold compositor_on.
    rewrite Forall_forall in Hsep.
    rewrite (basename_path_join _ _ (Hsep name Hin)).
    assert (Hne : name <> EmptyString) by (intros ->; discriminate Ei).
    eapply emits_weaken;
      [| apply add_watermark_saves_within; assumption].
    intros ev. apply saves_within_one.
    apply (in_map (fun n => path_join output_path ("watermarked_" ++ n))).
    apply filter_In. now split. }
  exact (Hem w).
Qed.

End Writes.

(** ** The command line *)

Section MainProperties.

Context {L : ImageLibrary} {S : Shell L}.








(** X18. An input path that is neither a file nor a directory: the output
    directory has been made by then, one line naming the path is printed,
    and the program exits; no image is opened and no directory listed.
    (Both paths are given on the command line, so nothing is prompted.) *)
Theorem main_missing_input
  (c : cli) (input_path watermark_path cwd : string) (w w1 : world) :
  cli_input c = Some input_path -> input_path <> EmptyString ->
  cli_watermark c = Some watermark_path -> watermark_path <> EmptyString ->
  os_getcwd w = inr cwd ->
  os_makedirs (ns_output_directory (parse_args c cwd)) w = (None, w1) ->
  os_path_isfile input_path w1 = false ->
  os_path_isdir input_path w1 = false ->
  main c w
  = (inr Exited, w1, [Print ("Error: " ++ input_path ++ " does not exist")]).
Proof.
  intros Hi Hin Hw Hwn Hc Hm Hf Hd.
  unfold main, bind, read, or_input, makedirs, test, ret, print, emit.
  rewrite Hc. cbn [parse_args ns_input ns_watermark].
  rewrite Hi, Hw, (eqb_empty_false _ Hin), (eqb_empty_false _ Hwn).
  cbn [parse_args ns_output_directory] in Hm |- *.
  rewrite Hm, Hf, Hd. reflexivity.
Qed.


End MainProperties.

(** ** The further properties on the small file system *)

Lemma offset_negative_iff_witness :
  In "bottom-right" valid_positions
  /\ exists x y,
       offset (L:=Toy.lib) (50, 50) (200, 100) (PyStr "bottom-right") Toy.pics
       = (inr (Some (x, y)), Toy.pics, [])
       /\ (x < 0 <->
           fst (50, 50) < fst (200, 100)
           /\ In "bottom-right" ["top-right"; "bottom-right"; "center"])
       /\ (y < 0 <->
           snd (50, 50) < snd (200, 100)
           /\ In "bottom-right" ["bottom-left"; "bottom-right"; "center"]).
Proof.
  assert (H : In "bottom-right" valid_positions) by (simpl; tauto).
  split; [exact H |].
  exact (offset_negative_iff (L:=Toy.lib) (50, 50) (200, 100) "bottom-right"
           Toy.pics H).
Defined.

Lemma resize_non_finite_scale_witness :
  is_finite S754_nan = false
  /\ exists line,
       resize (L:=Toy.lib) (200, 100) (PyFloat S754_nan) Toy.pics
       = (inr None, Toy.pics, [Print line]).
Proof.
  split; [reflexivity |].
  exact (resize_non_finite_scale (L:=Toy.lib) (200, 100) S754_nan Toy.pics
           eq_refl).
Defined.

Lemma resize_half_run :
  resize (L:=Toy.lib) (200, 100) (PyFloat float_half) Toy.pics
  = (inr (Some (100, 50)), Toy.pics, []).
Proof. reflexivity. Defined.

Lemma resize_keeps_signs_witness :
  resize (L:=Toy.lib) (200, 100) (PyFloat float_half) Toy.pics
  = (inr (Some (100, 50)), Toy.pics, [])
  /\ (0 <= 200 -> 0 <= 100) /\ (200 <= 0 -> 100 <= 0)
  /\ (0 <= 100 -> 0 <= 50) /\ (100 <= 0 -> 50 <= 0).
Proof.
  split; [exact resize_half_run |].
  exact (resize_keeps_signs (L:=Toy.lib) 200 100 100 50 (PyFloat float_half)
           Toy.pics Toy.pics [] resize_half_run).
Defined.


Lemma build_output_path_returns_iff_witness :
  is_str (PyInt 7) = false
  /\ build_output_path (L:=Toy.lib) (PyInt 7) (PyStr "/out") Toy.pics
     = (inr None, Toy.pics, [Print "TypeError: file_name must be a string."]).
Proof.
  split; [reflexivity |].
  exact (proj1 (proj2 (build_output_path_returns_iff (L:=Toy.lib) (PyInt 7)
                         (PyStr "/out") Toy.pics)) eq_refl).
Defined.

Lemma cat_png_path_run :
  build_output_path (L:=Toy.lib) (PyStr "cat.png") (PyStr "/out") Toy.pics
  = (inr (Some "/out/watermarked_cat.png"), Toy.pics, []).
Proof. reflexivity. Defined.

Lemma build_output_path_injective_witness :
  build_output_path (L:=Toy.lib) (PyStr "cat.png") (PyStr "/out") Toy.pics
  = (inr (Some "/out/watermarked_cat.png"), Toy.pics, [])
  /\ PyStr "cat.png" = PyStr "cat.png".
Proof.
  split; [exact cat_png_path_run |].
  exact (build_output_path_injective (L:=Toy.lib) (PyStr "cat.png")
           (PyStr "cat.png") (PyStr "/out") "/out/watermarked_cat.png"
           Toy.pics Toy.pics cat_png_path_run cat_png_path_run).
Defined.

Lemma output_path_is_not_input_witness :
  has_sep "cat.png" = false
  /\ (exists rest, "/out/watermarked_cat.png" = "/out" ++ rest)
  /\ basename "/out/watermarked_cat.png" = "watermarked_" ++ "cat.png"
  /\ (forall directory,
         "/out/watermarked_cat.png" <> path_join directory "cat.png").
Proof.
  split; [reflexivity |].
  exact (output_path_is_not_input (L:=Toy.lib) "cat.png" "/out"
           "/out/watermarked_cat.png" Toy.pics Toy.pics [] eq_refl
           cat_png_path_run).
Defined.

Lemma c_jpg_opens :
  Image_open (ImageLibrary:=Toy.lib) "/pics/c.JPG" Toy.pics = inr (200, 100).
Proof. reflexivity. Defined.

Lemma wm_png_opens :
  Image_open (ImageLibrary:=Toy.lib) "/wm.png" Toy.pics = inr (50, 50).
Proof. reflexivity. Defined.

Lemma opened_images_are_closed_witness :
  In "center" valid_positions
  /\ Image_open (ImageLibrary:=Toy.lib) "/pics/c.JPG" Toy.pics = inr (200, 100)
  /\ exists line,
       add_watermark (L:=Toy.lib) (PyStr "/pics/c.JPG") (PyStr "/pics/a.png")
         (PyStr "/out") (PyStr "center") (PyFloat float_half) (PyStr "c.JPG")
         Toy.pics
       = (inr tt, Toy.pics,
          [Open "/pics/c.JPG"; Open "/pics/a.png"; Close "/pics/c.JPG";
           Print line]).
Proof.
  split; [exact center_is_valid |]. split; [exact c_jpg_opens |].
  exact (opened_images_are_closed (L:=Toy.lib) "/pics/c.JPG" "/pics/a.png"
           "/out" "center" "c.JPG" float_half Toy.pics (200, 100)
           center_is_valid c_jpg_opens).
Defined.

Lemma c_jpg_not_empty : "c.JPG" <> EmptyString.
Proof. discriminate. Defined.

Lemma add_watermark_success_witness :
  add_watermark (L:=Toy.lib) (PyStr "/pics/c.JPG") (PyStr "/wm.png")
    (PyStr "/out") (PyStr "center") (PyFloat float_half) (PyStr "c.JPG")
    Toy.pics
  = (inr tt,
     Toy.Fs (("/out/watermarked_c.JPG", Some (200, 100)) :: Toy.files Toy.pics)
            (Toy.dirs Toy.pics),
     [Open "/pics/c.JPG"; Open "/wm.png";
      Resize (L:=Toy.lib) (50, 50) (Some (100, 50));
      Grayscale (L:=Toy.lib) (100, 50); Invert (L:=Toy.lib) (100, 50);
      Paste (L:=Toy.lib) (200, 100) (100, 50) (Some (50, 25)) (100, 50);
      Save (L:=Toy.lib) (200, 100)
        (Some (path_join "/out" ("watermarked_" ++ "c.JPG")));
      Print (saved_msg "/wm.png" "c.JPG" "center");
      Close "/wm.png"; Close "/pics/c.JPG"]).
Proof.
  assert (Hf : float_pos float_half = true) by (vm_compute; reflexivity).
  assert (Hs : scaled_size (200, 100) float_half = Some (100, 50))
    by (vm_compute; reflexivity).
  exact (add_watermark_success (L:=Toy.lib) "/pics/c.JPG" "/wm.png" "/out"
           "center" "c.JPG" float_half Toy.pics
           (Toy.Fs (("/out/watermarked_c.JPG", Some (200, 100))
                    :: Toy.files Toy.pics) (Toy.dirs Toy.pics))
           (200, 100) (50, 50) (100, 50) (100, 50) (100, 50) (200, 100)
           (100, 50) (50, 25)
           c_jpg_not_empty out_not_empty Hf c_jpg_opens wm_png_opens Hs
           eq_refl eq_refl eq_refl eq_refl eq_refl eq_refl).
Defined.

Lemma nonpositive_scale_after_open_witness :
  In "center" valid_positions
  /\ float_le_zero float_zero = true
  /\ exists line,
       add_watermark (L:=Toy.lib) (PyStr "/pics/c.JPG") (PyStr "/wm.png")
         (PyStr "/out") (PyStr "center") (PyFloat float_zero) (PyStr "c.JPG")
         Toy.pics
       = (inr tt, Toy.pics,
          [Open "/pics/c.JPG"; Open "/wm.png";
           Print "ValueError: scale_factor must be greater than 0.";
           Resize (L:=Toy.lib) (50, 50) None;
           Close "/wm.png"; Close "/pics/c.JPG"; Print line]).
Proof.
  assert (Hz : float_le_zero float_zero = true) by (vm_compute; reflexivity).
  split; [exact center_is_valid |]. split; [exact Hz |].
  exact (nonpositive_scale_after_open (L:=Toy.lib) "/pics/c.JPG" "/wm.png"
           "/out" "center" "c.JPG" float_zero Toy.pics (200, 100) (50, 50)
           (Exn TypeError "'NoneType' object is not iterable")
           center_is_valid Hz c_jpg_opens wm_png_opens eq_refl).
Defined.

Lemma pics_listing :
  os_listdir (ImageLibrary:=Toy.lib) "/pics" Toy.pics
  = inr ["a.png"; "b.txt"; "c.JPG"; "sub"].
Proof. reflexivity. Defined.

Lemma batch_without_images_witness :
  is_str PyNone = false
  /\ add_watermarks_to_directory (L:=Toy.lib) PyNone Toy.wm_path Toy.out_dir
       Toy.center Toy.half Toy.pics
     = (inr tt, Toy.pics, [Print "TypeError: directory must be a string."]).
Proof.
  split; [reflexivity |].
  exact (proj1 (batch_without_images (L:=Toy.lib) PyNone Toy.wm_path
                  Toy.out_dir Toy.center Toy.half Toy.pics) eq_refl).
Defined.

Lemma pics_plain_names :
  Forall (fun name => has_sep name = false) ["a.png"; "b.txt"; "c.JPG"; "sub"].
Proof. repeat constructor. Defined.

Lemma batch_saves_only_watermarked_names_witness :
  os_listdir (ImageLibrary:=Toy.lib) "/pics" Toy.pics
  = inr ["a.png"; "b.txt"; "c.JPG"; "sub"]
  /\ Forall (fun name => has_sep name = false)
       ["a.png"; "b.txt"; "c.JPG"; "sub"]
  /\ "/out" <> EmptyString
  /\ forallb
       (saves_within (L:=Toy.lib)
          (map (fun name => path_join "/out" ("watermarked_" ++ name))
               (filter is_image_name ["a.png"; "b.txt"; "c.JPG"; "sub"])))
       (snd (add_watermarks_to_directory (L:=Toy.lib) (PyStr "/pics")
               Toy.wm_path (PyStr "/out") Toy.center Toy.half Toy.pics))
     = true.
Proof.
  split; [exact pics_listing |]. split; [exact pics_plain_names |].
  split; [exact out_not_empty |].
  exact (batch_saves_only_watermarked_names (L:=Toy.lib) "/pics" "/out"
           ["a.png"; "b.txt"; "c.JPG"; "sub"] Toy.wm_path Toy.center Toy.half
           Toy.pics pics_listing pics_plain_names out_not_empty).
Defined.

Lemma batch_invalid_config_witness :
  valid_config Toy.wm_path Toy.out_dir Toy.center (PyInt 1) = false
  /\ exists line,
       add_watermarks_to_directory (L:=Toy.lib) (PyStr "/pics") Toy.wm_path
         Toy.out_dir Toy.center (PyInt 1) Toy.pics
       = (inr tt, Toy.pics,
          Listdir "/pics"
          :: repeat (Print line)
               (List.length
                  (filter is_image_name ["a.png"; "b.txt"; "c.JPG"; "sub"]))).
Proof.
  split; [reflexivity |].
  exact (batch_invalid_config (L:=Toy.lib) "/pics"
           ["a.png"; "b.txt"; "c.JPG"; "sub"] Toy.wm_path Toy.out_dir
           Toy.center (PyInt 1) Toy.pics eq_refl pics_listing).
Defined.

Lemma nope_not_empty : "/nope" <> EmptyString.
Proof. discriminate. Defined.

Lemma wm_png_not_empty : "/wm.png" <> EmptyString.
Proof. discriminate. Defined.

Lemma main_missing_input_witness :
  main (L:=Toy.lib) (S:=ToyShell.shell)
    (Cli (Some "/nope") (Some "/wm.png") None None None) Toy.pics
  = (inr Exited, Toy.pics, [Print ("Error: " ++ "/nope" ++ " does not exist")]).
Proof.
  exact (main_missing_input (L:=Toy.lib) (S:=ToyShell.shell)
           (Cli (Some "/nope") (Some "/wm.png") None None None)
           "/nope" "/wm.png" "/home" Toy.pics Toy.pics
           eq_refl nope_not_empty eq_refl wm_png_not_empty
           eq_refl eq_refl eq_refl eq_refl).
Defined.


(** ** A default run on one file *)

Section DefaultRun.

Context {L : ImageLibrary} {S : Shell L}.

Lemma append_not_empty (a b : string) (c : ascii) :
  a ++ String c b <> EmptyString.
Proof. destruct a; discriminate. Qed.

(** X20. The program run with only an image file and a watermark on the
    command line, when every step succeeds: the directory
    [watermarked_images] is made under the working directory, the
    watermark is resized to half the size of the image, pasted in its
    centre, and the result is saved in that directory under [watermarked_]
    and the base name of the input path; the program ends normally. *)
Theorem main_default_file_run
  (input_path watermark_path cwd : string) (w w1 w2 : world)
  (im wm wm1 gray mask im1 : image) (target : Z * Z) :
  input_path <> EmptyString ->
  watermark_path <> EmptyString ->
  basename input_path <> EmptyString ->
  os_getcwd w = inr cwd ->
  os_makedirs (cwd ++ "/watermarked_images") w = (None, w1) ->
  os_path_isfile input_path w1 = true ->
  Image_open input_path w1 = inr im ->
  Image_open watermark_path w1 = inr wm ->
  scaled_size (size im) float_half = Some target ->
  Image_resize wm (Some target) = inr wm1 ->
  ImageOps_grayscale wm1 = inr gray ->
  ImageOps_invert gray = inr mask ->
  Image_paste im wm1
    (Some ((fst (size im) - fst (size wm1)) / 2,
           (snd (size im) - snd (size wm1)) / 2)) mask = inr im1 ->
  Image_save im1
    (Some (path_join (cwd ++ "/watermarked_images")
             ("watermarked_" ++ basename input_path))) w1 = (None, w2) ->
  main (Cli (Some input_path) (Some watermark_path) None None None) w
  = (inr Finished, w2,
     [Open input_path; Open watermark_path;
      Resize wm (Some target); Grayscale wm1; Invert gray;
      Paste im wm1
        (Some ((fst (size im) - fst (size wm1)) / 2,
               (snd (size im) - snd (size wm1)) / 2)) mask;
      Save im1
        (Some (path_join (cwd ++ "/watermarked_images")
                 ("watermarked_" ++ basename input_path)));
      Print (saved_msg watermark_path (basename input_path) "center");
      Close watermark_path; Close input_path]).
Proof.
  intros Hin Hwn Hb Hc Hm Hf Hoi How Hs Hres Hg Hi Hp Hsave.
  assert (Hpos : float_pos float_half = true) by (vm_compute; reflexivity).
  pose proof (add_watermark_all_succeed input_path watermark_path
                (cwd ++ "/watermarked_images") "center" (basename input_path)
                float_half w1 w2 im wm wm1 gray mask im1 target _
                Hb (append_not_empty cwd _ _) Hpos Hoi How Hs Hres Hg Hi
                eq_refl Hp Hsave) as Hrun.
  unfold main, bind, read, or_input, makedirs, test, ret.
  rewrite Hc. cbn [parse_args ns_input ns_watermark cli_input cli_watermark
                   cli_watermark_position cli_scale_watermark
                   cli_output_directory ns_output_directory
                   ns_watermark_position ns_scale_watermark].
  rewrite (eqb_empty_false _ Hin), (eqb_empty_false _ Hwn).
  rewrite Hm, Hf, Hrun. reflexivity.
Qed.

End DefaultRun.

Lemma main_default_file_run_witness :
  main (L:=Toy.lib) (S:=ToyShell.shell)
    (Cli (Some "/pics/c.JPG") (Some "/wm.png") None None None) Toy.pics
  = (inr Finished,
     Toy.Fs (("/home/watermarked_images/watermarked_c.JPG", Some (200, 100))
             :: Toy.files Toy.pics) (Toy.dirs Toy.pics),
     [Open "/pics/c.JPG"; Open "/wm.png";
      Resize (L:=Toy.lib) (50, 50) (Some (100, 50));
      Grayscale (L:=Toy.lib) (100, 50); Invert (L:=Toy.lib) (100, 50);
      Paste (L:=Toy.lib) (200, 100) (100, 50)
        (Some ((fst (200, 100) - fst (100, 50)) / 2,
               (snd (200, 100) - snd (100, 50)) / 2)) (100, 50);
      Save (L:=Toy.lib) (200, 100)
        (Some (path_join ("/home" ++ "/watermarked_images")
                 ("watermarked_" ++ basename "/pics/c.JPG")));
      Print (saved_msg "/wm.png" (basename "/pics/c.JPG") "center");
      Close "/wm.png"; Close "/pics/c.JPG"]).
Proof.
  assert (Hs : scaled_size (200, 100) float_half = Some (100, 50))
    by (vm_compute; reflexivity).
  assert (Hp : "/pics/c.JPG" <> EmptyString) by discriminate.
  assert (Hb : basename "/pics/c.JPG" <> EmptyString) by discriminate.
  exact (main_default_file_run (L:=Toy.lib) (S:=ToyShell.shell)
           "/pics/c.JPG" "/wm.png" "/home" Toy.pics Toy.pics
           (Toy.Fs (("/home/watermarked_images/watermarked_c.JPG",
                     Some (200, 100)) :: Toy.files Toy.pics)
                   (Toy.dirs Toy.pics))
           (200, 100) (50, 50) (100, 50) (100, 50) (100, 50) (200, 100)
           (100, 50)
           Hp wm_png_not_empty Hb eq_refl eq_refl eq_refl c_jpg_opens
           wm_png_opens Hs eq_refl eq_refl eq_refl eq_refl eq_refl).
Defined.

(** ** The success line *)

Section SuccessLine.

Context {L : ImageLibrary}.

Lemma saved_msg_not_error (a b c : string) :
  is_error_line (saved_msg a b c) = false.
Proof. reflexivity. Qed.

Lemma no_saved_line (t : list (event L)) (a b c : string) :
  forallb call_or_error_line t = true -> ~ In (Print (saved_msg a b c)) t.
Proof.
  intros H Hin. rewrite forallb_forall in H. specialize (H _ Hin).
  unfold call_or_error_line in H. rewrite saved_msg_not_error in H.
  discriminate H.
Qed.

Lemma report_error_line (e : exn) (w : world) :
  exists line,
    report e w = (inr tt, w, [Print line]) /\ is_error_line line = true.
Proof. destruct e as [[] [| c m]]; eexists; split; reflexivity. Qed.

Lemma resize_only_reports (sz : Z * Z) (v : pyval) :
  only_reports (resize (L:=L) sz v).
Proof.
  intros w. destruct sz as [width height].
  unfold resize, resize_body, try_except, bind, expect_float, check, ret, lift.
  destruct v as [| b | z | f | s]; try (do 2 eexists; split; reflexivity).
  destruct (float_le_zero f); cbn [negb];
    [do 2 eexists; split; reflexivity |].
  destruct (int_mul_float width f) as [[[] [| c m]] | x];
    try (do 2 eexists; split; reflexivity).
  destruct (int_of_float x) as [[[] [| c m]] | a];
    try (do 2 eexists; split; reflexivity).
  destruct (int_mul_float height f) as [[[] [| c m]] | y];
    try (do 2 eexists; split; reflexivity).
  destruct (int_of_float y) as [[[] [| c m]] | b];
    do 2 eexists; split; reflexivity.
Qed.

Lemma offset_only_reports (im wm : image) (v : pyval) :
  only_reports (offset im wm v).
Proof.
  intros w. unfold offset, try_except, bind, lift.
  destruct (offset_body im wm v) as [[k [| c m]] | xy];
    do 2 eexists; split; reflexivity.
Qed.

Lemma build_output_path_only_reports (a b : pyval) :
  only_reports (build_output_path (L:=L) a b).
Proof.
  intros w.
  unfold build_output_path, build_output_path_body, try_except, bind,
    expect_str, check, ret.
  destruct a as [| | | | fn]; try (do 2 eexists; split; reflexivity).
  destruct b as [| | | | op]; try (do 2 eexists; split; reflexivity).
  destruct (String.eqb fn EmptyString);
    [do 2 eexists; split; reflexivity |].
  destruct (String.eqb op EmptyString); do 2 eexists; split; reflexivity.
Qed.

Lemma bind_only_reports_inv {A B} (m : M L A) (k : A -> M L B) w r w1 t :
  only_reports m ->
  bind m k w = (r, w1, t) ->
  exists a t1 t2,
    forallb call_or_error_line t1 = true
    /\ k a w = (r, w1, t2) /\ t = (t1 ++ t2)%list.
Proof.
  intros Hm H. destruct (Hm w) as (a & t1 & Em & Q).
  unfold bind in H. rewrite Em in H.
  destruct (k a w) as [[r2 w2] t2] eqn:Ek.
  injection H as <- <- <-. now exists a, t1, t2.
Qed.

Lemma bind_call_inv {A B} (ev : event L) (res : result A) (k : A -> M L B)
  w r w1 t :
  bind (call ev res) k w = (r, w1, t) ->
  match res with
  | inl e => r = inl e /\ w1 = w /\ t = [ev]
  | inr a => exists t2, k a w = (r, w1, t2) /\ t = ev :: t2
  end.
Proof.
  unfold bind at 1. rewrite call_returns.
  destruct res as [e | a].
  - intros H. injection H as <- <- <-. now repeat split.
  - destruct (k a w) as [[r2 w2] t2] eqn:Ek.
    intros H. injection H as <- <- <-. now exists t2.
Qed.

Lemma bind_save_inv {B} (im : image) (p : option string) (k : unit -> M L B)
  w r w1 t :
  bind (save im p) k w = (r, w1, t) ->
  match Image_save im p w with
  | (Some e, w') => r = inl e /\ w1 = w' /\ t = [Save im p]
  | (None, w') => exists t2, k tt w' = (r, w1, t2) /\ t = Save im p :: t2
  end.
Proof.
  unfold bind, save.
  destruct (Image_save im p w) as [[e |] w'].
  - intros H. injection H as <- <- <-. now repeat split.
  - destruct (k tt w') as [[r2 w2] t2] eqn:Ek.
    intros H. injection H as <- <- <-. now exists t2.
Qed.

(** The [with] block either runs to its end, its last two events being a
    save that returned and the success line, or raises after library calls
    and error lines only. *)
Lemma with_block_outcome
  (watermark_path output_path position file_name : string)
  (scale_factor : pyval) (im wm : image) (w w1 : world) (r : result unit)
  (t : list (event L)) :
  with_block watermark_path output_path position file_name scale_factor
             im wm w = (r, w1, t) ->
  (r = inr tt
   /\ exists pre im1 p,
        t = (pre ++ [Save im1 p;
                     Print (saved_msg watermark_path file_name position)])%list
        /\ Image_save im1 p w = (None, w1)
        /\ forallb call_or_error_line pre = true)
  \/ ((exists e, r = inl e) /\ forallb call_or_error_line t = true).
Proof.
  intros H. unfold with_block in H.
  apply bind_only_reports_inv in H; [| apply resize_only_reports].
  destruct H as (target & t0 & t' & Q0 & H & ->).
  apply bind_call_inv in H.
  destruct (Image_resize wm target) as [e | wm1].
  { destruct H as (-> & -> & ->). right. split; [now eexists |].
    now rewrite forallb_app, Q0. }
  destruct H as (t2 & H & ->). apply bind_call_inv in H.
  destruct (ImageOps_grayscale wm1) as [e | gray].
  { destruct H as (-> & -> & ->). right. split; [now eexists |].
    now rewrite forallb_app, Q0. }
  destruct H as (t3 & H & ->). apply bind_call_inv in H.
  destruct (ImageOps_invert gray) as [e | mask].
  { destruct H as (-> & -> & ->). right. split; [now eexists |].
    now rewrite forallb_app, Q0. }
  destruct H as (t4 & H & ->).
  apply bind_only_reports_inv in H; [| apply offset_only_reports].
  destruct H as (box & t5 & t6 & Q5 & H & ->).
  apply bind_call_inv in H.
  destruct (Image_paste im wm1 box mask) as [e | im1].
  { destruct H as (-> & -> & ->). right. split; [now eexists |].
    rewrite forallb_app, Q0. cbn. now rewrite forallb_app, Q5. }
  destruct H as (t7 & H & ->).
  apply bind_only_reports_inv in H; [| apply build_output_path_only_reports].
  destruct H as (p & t8 & t9 & Q8 & H & ->).
  apply bind_save_inv in H.
  destruct (Image_save im1 p w) as [[e |] w'] eqn:Es.
  { destruct H as (-> & -> & ->). right. split; [now eexists |].
    rewrite forallb_app, Q0. cbn. rewrite forallb_app, Q5. cbn.
    now rewrite forallb_app, Q8. }
  destruct H as (t10 & H & ->).
  unfold print, emit in H. injection H as <- <- <-.
  left. split; [reflexivity |].
  exists (t0 ++ Resize wm target :: Grayscale wm1 :: Invert gray
          :: t5 ++ Paste im wm1 box mask :: t8)%list, im1, p.
  split; [| split].
  - repeat (rewrite <- app_assoc; cbn [app]). reflexivity.
  - exact Es.
  - rewrite forallb_app, Q0. cbn. rewrite forallb_app, Q5. cbn. exact Q8.
Qed.

Lemma add_watermark_invalid_error
  (image_path watermark_path output_path position scale_factor file_name : pyval)
  (w : world) :
  valid_args image_path watermark_path output_path position scale_factor
             file_name = false ->
  exists line,
    add_watermark image_path watermark_path output_path position scale_factor
                  file_name w = (inr tt, w, [Print line])
    /\ is_error_line line = true.
Proof.
  unfold valid_args, add_watermark, add_watermark_body, try_except.
  destruct image_path; try (intros _; eexists; split; reflexivity).
  destruct watermark_path; try (intros _; eexists; split; reflexivity).
  destruct output_path; try (intros _; eexists; split; reflexivity).
  destruct position as [| | | | p];
    try (intros _; eexists; split; reflexivity).
  destruct scale_factor; try (intros _; eexists; split; reflexivity).
  destruct file_name; try (intros _; eexists; split; reflexivity).
  cbn [is_str isinstance_float andb is_valid_position].
  intros Hp.
  cbn [expect_str bind ret check isinstance_float app].
  rewrite Hp. eexists. split; reflexivity.
Qed.

(** X21. The line [Saved watermark ... position] is printed only after a
    save that returned: when a call of [add_watermark] has printed it, the
    events of the call hold a [save] that returned without an exception
    from the file system the call started with, and the call ends in the
    file system that save left. *)
Theorem success_line_means_saved
  (image_path watermark_path output_path position file_name : string)
  (scale_factor : pyval) (w w' : world) (t : list (event L)) :
  add_watermark (PyStr image_path) (PyStr watermark_path) (PyStr output_path)
                (PyStr position) scale_factor (PyStr file_name) w
  = (inr tt, w', t) ->
  In (Print (saved_msg watermark_path file_name position)) t ->
  exists im p, In (Save im p) t /\ Image_save im p w = (None, w').
Proof.
  intros H Hin.
  destruct (valid_args (PyStr image_path) (PyStr watermark_path)
              (PyStr output_path) (PyStr position) scale_factor
              (PyStr file_name)) eqn:Ev.
  2:{ destruct (add_watermark_invalid_error _ _ _ _ _ _ w Ev)
        as (line & Hl & Herr).
      rewrite Hl in H. injection H as <- <-.
      exfalso. revert Hin. apply no_saved_line. cbn. now rewrite Herr. }
  unfold valid_args in Ev.
  destruct scale_factor as [| | | f |]; try discriminate Ev.
  cbn [is_str isinstance_float andb is_valid_position] in Ev.
  unfold add_watermark, try_except in H.
  rewrite (add_watermark_body_valid _ _ _ _ _ _ _ Ev) in H.
  destruct (Image_open image_path w) as [e | im] eqn:Hoi.
  { rewrite (with_open_fail _ _ _ _ Hoi) in H.
    destruct (report_error_line e w) as (line & Hl & Herr).
    rewrite Hl in H. injection H as <- <-.
    exfalso. revert Hin. apply no_saved_line. cbn. now rewrite Herr. }
  destruct (Image_open watermark_path w) as [e | wm] eqn:How.
  { pose proof (with_open_fail watermark_path
                  (with_block watermark_path output_path position file_name
                              (PyFloat f) im) w e How) as H2.
    rewrite (with_open_events image_path
               (fun image =>
                  with_open watermark_path
                    (with_block watermark_path output_path position
                                file_name (PyFloat f) image))
               w im _ _ _ Hoi H2) in H.
    destruct (report_error_line e w) as (line & Hl & Herr).
    rewrite Hl in H. injection H as <- <-.
    exfalso. revert Hin. apply no_saved_line. cbn. now rewrite Herr. }
  destruct (with_block watermark_path output_path position file_name
              (PyFloat f) im wm w) as [[r wb] tb] eqn:Eb.
  pose proof (with_open_events watermark_path _ w wm _ _ _ How Eb) as H2.
  rewrite (with_open_events image_path
             (fun image =>
                with_open watermark_path
                  (with_block watermark_path output_path position
                              file_name (PyFloat f) image))
             w im _ _ _ Hoi H2) in H.
  destruct (with_block_outcome _ _ _ _ _ _ _ _ _ _ _ Eb)
    as [(-> & pre & im1 & p & -> & Hsave & Qpre) | ((e & ->) & Qt)].
  - injection H as <- <-. exists im1, p. split; [| exact Hsave].
    repeat first [rewrite in_app_iff | progress cbn [In app]]. tauto.
  - destruct (report_error_line e wb) as (line & Hl & Herr).
    rewrite Hl in H. injection H as <- <-.
    exfalso. revert Hin. apply no_saved_line.
    cbn. rewrite !forallb_app, Qt. cbn. now rewrite Herr.
Qed.

End SuccessLine.

Lemma success_line_means_saved_witness :
  exists im p,
    In (Save (L:=Toy.lib) im p)
       [Open "/pics/c.JPG"; Open "/wm.png";
        Resize (L:=Toy.lib) (50, 50) (Some (100, 50));
        Grayscale (L:=Toy.lib) (100, 50); Invert (L:=Toy.lib) (100, 50);
        Paste (L:=Toy.lib) (200, 100) (100, 50) (Some (50, 25)) (100, 50);
        Save (L:=Toy.lib) (200, 100) (Some "/out/watermarked_c.JPG");
        Print "Saved watermark (/wm.png) to image (c.JPG) at (center) position";
        Close "/wm.png"; Close "/pics/c.JPG"]
    /\ Image_save (ImageLibrary:=Toy.lib) im p Toy.pics
       = (None,
          Toy.Fs (("/out/watermarked_c.JPG", Some (200, 100))
                  :: Toy.files Toy.pics) (Toy.dirs Toy.pics)).
Proof.
  refine (success_line_means_saved (L:=Toy.lib) "/pics/c.JPG" "/wm.png" "/out"
            "center" "c.JPG" (PyFloat float_half) Toy.pics _ _ _ _).
  - reflexivity.
  - do 7 right. left. reflexivity.
Defined.

(** ** Names and unreadable images *)

Section NamesAndFailures.

Context {L : ImageLibrary}.

(** X22. Joining a directory and a plain entry name and taking the base
    name again gives the entry name back, so the file name the Batch Driver
    hands to the Compositor (line 219) is the entry's own name, whatever
    the directory string looks like (empty, with or without a trailing
    separator). *)
Theorem batch_file_name_is_entry_name
  (directory filename : string)
  (watermark_path output_path position scale_factor : pyval) :
  has_sep filename = false ->
  basename (path_join directory filename) = filename
  /\ compositor_on directory watermark_path output_path position scale_factor
                   filename
     = add_watermark (PyStr (path_join directory filename)) watermark_path
                     output_path position scale_factor (PyStr filename).
Proof.
  intros H. pose proof (basename_path_join directory filename H) as Hb.
  split; [exact Hb |].
  unfold compositor_on. now rewrite Hb.
Qed.

(** X23. An image that cannot be opened: with valid arguments the call
    tries to open it, prints the error and returns; the watermark file is
    never opened and the file system is as it was. *)
Theorem unreadable_image
  (image_path watermark_path output_path position file_name : string)
  (f : float) (w : world) (e : exn) :
  In position valid_positions ->
  Image_open image_path w = inl e ->
  exists line,
    add_watermark (PyStr image_path) (PyStr watermark_path)
      (PyStr output_path) (PyStr position) (PyFloat f) (PyStr file_name) w
    = (inr tt, w, [Open image_path; Print line])
    /\ is_error_line line = true.
Proof.
  intros Hpos Ho. apply existsb_eqb_In in Hpos.
  destruct (report_error_line e w) as (line & Hl & Herr).
  exists line. split; [| exact Herr].
  unfold add_watermark, try_except.
  rewrite (add_watermark_body_valid _ _ _ _ _ _ _ Hpos).
  rewrite (with_open_fail _ _ _ _ Ho), Hl. reflexivity.
Qed.

End NamesAndFailures.

Lemma batch_file_name_is_entry_name_witness :
  has_sep "c.JPG" = false
  /\ basename (path_join "/pics" "c.JPG") = "c.JPG"
  /\ compositor_on (L:=Toy.lib) "/pics" Toy.wm_path Toy.out_dir Toy.center
       Toy.half "c.JPG"
     = add_watermark (PyStr (path_join "/pics" "c.JPG")) Toy.wm_path
         Toy.out_dir Toy.center Toy.half (PyStr "c.JPG").
Proof.
  split; [reflexivity |].
  exact (batch_file_name_is_entry_name (L:=Toy.lib) "/pics" "c.JPG"
           Toy.wm_path Toy.out_dir Toy.center Toy.half eq_refl).
Defined.

Lemma unreadable_image_witness :
  In "center" valid_positions
  /\ Image_open (ImageLibrary:=Toy.lib) "/pics/a.png" Toy.pics
     = inl (Exn OtherException "cannot identify image file")
  /\ exists line,
       add_watermark (L:=Toy.lib) (PyStr "/pics/a.png") (PyStr "/wm.png")
         (PyStr "/out") (PyStr "center") (PyFloat float_half) (PyStr "a.png")
         Toy.pics
       = (inr tt, Toy.pics, [Open "/pics/a.png"; Print line])
       /\ is_error_line line = true.
Proof.
  split; [exact center_is_valid |]. split; [reflexivity |].
  exact (unreadable_image (L:=Toy.lib) "/pics/a.png" "/wm.png" "/out"
           "center" "a.png" float_half Toy.pics
           (Exn OtherException "cannot identify image file")
           center_is_valid eq_refl).
Defined.

(** ** Where two statements of the specification go too far *)

(** C6 as stated fails in its last clause: [build_output_path] is not free
    of I/O. On an empty file name it prints the ValueError line. *)
Lemma build_output_path_prints_counterexample :
  ~ no_io (build_output_path (L:=Toy.lib) (PyStr EmptyString) (PyStr "/out")).
Proof.
  intros H. destruct (H Toy.pics) as [r Hr].
  assert (Hrun : build_output_path (L:=Toy.lib) (PyStr EmptyString)
                   (PyStr "/out") Toy.pics
                 = (inr None, Toy.pics,
                    [Print "ValueError: file_name and output_path cannot be empty strings."]))
    by reflexivity.
  rewrite Hrun in Hr. discriminate Hr.
Qed.

(** C7 as stated fails for subdirectories: nothing tests whether an entry
    is a directory, so a subdirectory named [dir.png] is handed to the
    Compositor, which tries to open it and prints the error. *)
Lemma subdirectory_named_like_image_counterexample :
  ~ subdirectories_skipped (L:=Toy.lib)
      (fun path => ToyShell.isdir path named_like_image)
      "/names" ["dir.png"]
      (snd (add_watermarks_to_directory (L:=Toy.lib) (PyStr "/names")
              Toy.wm_path Toy.out_dir Toy.center Toy.half named_like_image)).
Proof.
  intros H.
  apply (H "dir.png").
  - now left.
  - reflexivity.
  - right. left. reflexivity.
Qed.

(** The run behind it: the subdirectory is opened, and not in silence. *)
Example batch_run_named_like_image :
  add_watermarks_to_directory (L:=Toy.lib) (PyStr "/names") Toy.wm_path
    Toy.out_dir Toy.center Toy.half named_like_image
  = (inr tt, named_like_image,
     [Listdir "/names"; Open "/names/dir.png";
      Print "Error: cannot identify image file"]).
Proof. reflexivity. Qed.
